(** * hw2/cnn.py: construction and forward pass of the CNN, ResidualBlock,
      ResidualBottleneckBlock, ResNet and YourCNN models

    The Python classes of [hw2/cnn.py] are embedded as Rocq modules of the
    same names; a method [C.m] of the source is the definition [C.m] here.
    Python exceptions are values of [exn]; code that can raise returns a
    [result].  Code that instantiates torch modules or runs tensors through
    them lives in the monad [M], which threads the global random generator
    and a log of the torch modules instantiated so far.

    The torch library itself is not part of the repository: its tensors and
    the forward functions of its modules are the fields of the class [Torch],
    and every definition and theorem is parametric in it.  [ShapeTorch] is a
    reference instance that keeps only tensor shapes and the position of the
    random stream; it is used to run the model on concrete configurations. *)

From stdpp Require Import gmap strings list.
From Stdlib Require Import ZArith Lia.
From Stdlib Require QArith Qround.
Local Open Scope Z_scope.

(** ** Python values, exceptions and results *)

Abbreviation Q := QArith_base.Q.

(** Python floats are represented by rationals; the code only compares one
    with zero ([dropout > 0]) and passes the others on to torch. *)
Definition Qpositive (x : Q) : bool := 0 <? QArith_base.Qnum x.

Inductive pyval :=
| VInt (z : Z)
| VFloat (q : Q)
| VBool (b : bool)
| VStr (s : string).

(** Keyword arguments of a torch constructor. *)
Abbreviation kwargs := (gmap string pyval).

(** A Python number that is an [int] or a [float]. *)
Inductive pynum :=
| PInt (z : Z)
| PFloat (q : Q).

Inductive exn :=
| ValueError (msg : string)
| AssertionError
| KeyError (key : string)
| IndexError
| TypeError
| ZeroDivisionError
| RuntimeError.

Inductive result (A : Type) :=
| Ok (a : A)
| Raise (e : exn).
Arguments Ok {A} a.
Arguments Raise {A} e.

#[global] Instance result_ret : MRet result := fun A a => Ok a.
#[global] Instance result_bind : MBind result := fun A B f m =>
  match m with
  | Ok a => f a
  | Raise e => Raise e
  end.

Definition is_Ok {A} (r : result A) : Prop :=
  match r with Ok _ => True | Raise _ => False end.

(** [assert c] *)
Definition py_assert (c : bool) : result unit :=
  if c then Ok tt else Raise AssertionError.

(** [d[k]] on a dict *)
Definition py_lookup {V} (d : gmap string V) (k : string) : result V :=
  match d !! k with
  | Some v => Ok v
  | None => Raise (KeyError k)
  end.

(** [k in d] on a dict *)
Definition py_in {V} (k : string) (d : gmap string V) : bool :=
  bool_decide (is_Some (d !! k)).

(** [a % b] and [a // b] on ints: the remainder has the sign of the divisor
    and the quotient is rounded down, as [Z.modulo] and [Z.div] do. *)
Definition py_mod (a b : Z) : result Z :=
  if b =? 0 then Raise ZeroDivisionError else Ok (a mod b).

Definition py_floordiv (a b : Z) : result Z :=
  if b =? 0 then Raise ZeroDivisionError else Ok (a / b).

(** [math.floor(a / b)] on ints.  The quotient [a / b] is a float, the
    binary64 value nearest to the exact quotient; it is represented here by
    the exact quotient, whose floor is [Z.div].  The two agree for operands
    up to 2^52 in magnitude, where the float never reaches the next
    integer; beyond 2^53 Python rounds the quotient before taking the
    floor, and raises an OverflowError above the largest float.  The
    theorem on the dimensions that the plain extractor records bounds the
    operands accordingly. *)
Definition floor_truediv (a b : Z) : result Z :=
  if b =? 0 then Raise ZeroDivisionError else Ok (a / b).

(** [b ** e] on ints: an int for [e >= 0], a float otherwise.  The float
    is represented by the exact rational [1 / b ^ (- e)], where Python has
    the binary64 value the platform computes for it, which is 0.0 when the
    rational is too small.  The theorems on the residual extractor state
    the recorded dimensions only where the exponent is not negative, and
    none states that an operation on such a float raises nothing. *)
Definition py_pow (b e : Z) : result pynum :=
  if 0 <=? e then Ok (PInt (b ^ e))
  else if b =? 0 then Raise ZeroDivisionError
  else Ok (PFloat (QArith_base.Qinv (QArith_base.inject_Z (b ^ (- e))))).

(** [a // d] for an int [a] and a number [d]: exact on ints, and on the
    rational that represents a float (see [py_pow]). *)
Definition py_floordiv_num (a : Z) (d : pynum) : result pynum :=
  match d with
  | PInt z => z' ← py_floordiv a z; mret (PInt z')
  | PFloat q =>
      if QArith_base.Qnum q =? 0 then Raise ZeroDivisionError
      else Ok (PFloat (QArith_base.inject_Z
                 (Qround.Qfloor (QArith_base.Qdiv (QArith_base.inject_Z a) q))))
  end.

(** [l[i]] on a list: a negative index counts from the end. *)
Definition py_getitem {A} (l : list A) (i : Z) : result A :=
  let n := Z.of_nat (length l) in
  let j := if i <? 0 then i + n else i in
  if (j <? 0) || (n <=? j) then Raise IndexError
  else match l !! Z.to_nat j with
       | Some a => Ok a
       | None => Raise IndexError
       end.

(** Bound of a slice with step 1, brought into [0..n]. *)
Definition py_clamp (n i : Z) : Z :=
  if i <? 0 then Z.max 0 (i + n) else Z.min i n.

(** [l[lo:hi]]; [None] is an omitted bound. *)
Definition py_slice {A} (l : list A) (lo hi : option Z) : list A :=
  let n := Z.of_nat (length l) in
  let a := from_option (py_clamp n) 0 lo in
  let b := from_option (py_clamp n) n hi in
  take (Z.to_nat (b - a)) (drop (Z.to_nat a) l).

(** [[x] * n] *)
Definition py_repeat {A} (x : A) (n : Z) : list A := replicate (Z.to_nat n) x.

(** [len(l)] *)
Definition len {A} (l : list A) : Z := Z.of_nat (length l).

(** ** Torch modules as data *)

Inductive act_ctor := ReLU | LeakyReLU.
Inductive pool_ctor := AvgPool2d | MaxPool2d.

Set Warnings "-register-all".

(** A torch module instance.  [Conv2d cin cout kw] is [nn.Conv2d] called
    with [cin], [cout] and the keyword arguments [kw]; [Activation f kw] and
    [Pool f kw] are the constructor [f] called with the keyword arguments
    [kw]; [ResidualBlock main short] is an instance of
    the class [ResidualBlock] (or of its subclass) with these two
    [nn.Sequential]s as [main_path] and [shortcut_path].  An [nn.Sequential]
    is the list of its modules. *)
Inductive layer :=
| Conv2d (in_channels out_channels : Z) (kw : kwargs)
| Activation (f : act_ctor) (kw : kwargs)
| Pool (f : pool_ctor) (kw : kwargs)
| Dropout2d (p : Q)
| BatchNorm2d (num_features : Z)
| Identity
| ResidualBlock (main_path shortcut_path : list layer)
| MLP (in_dim : Z) (dims : list Z) (nonlins : list (layer + string)).

(** Modelled from the spec: [MLP] above and [ACTIVATIONS] below are imported
    by cnn.py from the module [.mlp], which is not among the sources.  The
    MLP is the classifier head of spec 4.6, built from an input dimension, a
    sequence of output dimensions and a matching sequence of nonlinearities;
    the activation table has the two kinds the docstrings and the spec name,
    'relu' and 'lrelu'. *)
Definition ACTIVATIONS : gmap string act_ctor :=
  {[ "relu" := ReLU; "lrelu" := LeakyReLU ]}.

(** [POOLINGS = {"avg": nn.AvgPool2d, "max": nn.MaxPool2d}] *)
Definition POOLINGS : gmap string pool_ctor :=
  {[ "avg" := AvgPool2d; "max" := MaxPool2d ]}.

(** [nn.Conv2d] and the pooling constructors have [kernel_size] as a
    required argument; calling them without it is a [TypeError]. *)
Definition ctor_check (l : layer) : result unit :=
  match l with
  | Conv2d _ _ kw | Pool _ kw =>
      if py_in "kernel_size" kw then Ok tt else Raise TypeError
  | _ => Ok tt
  end.

(** ** The torch library as an interface *)

Class Torch := {
  tensor : Type;
  rng_state : Type;
  (** Instantiating a module initialises its parameters from the global
      generator. *)
  init_module : layer -> rng_state -> rng_state;
  (** Forward function of a library module, in training or evaluation mode;
      it may draw from the generator and it may raise. *)
  call_module : layer -> bool -> tensor -> rng_state -> result tensor * rng_state;
  torch_zeros : list Z -> tensor;
  torch_unsqueeze0 : tensor -> tensor;
  torch_numel : tensor -> Z;
  tensor_shape : tensor -> list Z;
  tensor_reshape : tensor -> list Z -> result tensor;
  torch_add : tensor -> tensor -> result tensor;
  torch_relu : tensor -> tensor;
}.

(** ** The construction monad *)

(** How the body of a [for] loop ends: it runs to its end, or it leaves the
    loop with [break]. *)
Inductive ctl (S : Type) := Continue (s : S) | Break (s : S).
Arguments Continue {S} s.
Arguments Break {S} s.

(** The global state: the random generator, whose states are the values of
    [R], and the torch modules instantiated so far. *)
Record state (R : Type) := World { rng : R; built : list layer }.
Arguments World {R} rng built.
Arguments rng {R} s.
Arguments built {R} s.

Section Monad.
Context `{Torch}.

(** The state that construction and forward passes act on. *)
Definition world : Type := state rng_state.

Definition M (A : Type) : Type := world -> result A * world.

#[global] Instance M_ret : MRet M := fun A a w => (Ok a, w).
#[global] Instance M_bind : MBind M := fun A B f m w =>
  match m w with
  | (Ok a, w') => f a w'
  | (Raise e, w') => (Raise e, w')
  end.

Definition lift {A} (r : result A) : M A := fun w => (r, w).

Definition raise {A} (e : exn) : M A := lift (Raise e).

(** A call of a torch constructor. *)
Definition new_module (l : layer) : M layer := fun w =>
  match ctor_check l with
  | Ok _ => (Ok l, {| rng := init_module l (rng w); built := built w ++ [l] |})
  | Raise e => (Raise e, w)
  end.

(** [torch.get_rng_state()] and [torch.set_rng_state(s)] *)
Definition get_rng_state : M rng_state := fun w => (Ok (rng w), w).
Definition set_rng_state (s : rng_state) : M unit := fun w =>
  (Ok tt, {| rng := s; built := built w |}).

(** [try: body finally: handler] *)
Definition try_finally {A} (body : M A) (handler : M unit) : M A := fun w =>
  let '(r, w1) := body w in
  match handler w1 with
  | (Ok _, w2) => (r, w2)
  | (Raise e, w2) => (Raise e, w2)
  end.

(** A [for] loop over a list. *)
Fixpoint py_for {A S} (body : S -> A -> M (ctl S)) (l : list A) (s : S) : M S :=
  match l with
  | [] => mret s
  | x :: l' =>
      c ← body s x;
      match c with
      | Continue s' => py_for body l' s'
      | Break s' => mret s'
      end
  end.
End Monad.

(** ** Running modules *)

Section Forward.
Context `{Torch}.

(** [ResidualBlock.forward] (lines 235-243) and the forward of an
    [nn.Sequential], which feeds each module the output of the one before.
    [training] is the mode the modules are in. *)
Fixpoint call (training : bool) (l : layer) (x : tensor) {struct l} : M tensor :=
  match l with
  | ResidualBlock main_path shortcut_path =>
      let Sequential :=
        fix Sequential (ls : list layer) (x : tensor) {struct ls} : M tensor :=
          match ls with
          | [] => mret x
          | l' :: ls' => y ← call training l' x; Sequential ls' y
          end in
      a ← Sequential main_path x;
      b ← Sequential shortcut_path x;
      out ← lift (torch_add a b);
      let out := torch_relu out in
      mret out
  | _ => fun w =>
      let '(r, g) := call_module l training x (rng w) in
      (r, {| rng := g; built := built w |})
  end.

Fixpoint Sequential (training : bool) (ls : list layer) (x : tensor) : M tensor :=
  match ls with
  | [] => mret x
  | l :: ls' => y ← call training l x; Sequential training ls' y
  end.
End Forward.

(** ** class CNN *)

Module CNN.

(** The arguments of [CNN.__init__], which it stores as attributes of [self].
    [in_size] is the triple (C, H, W). *)
Record args := Args {
  in_size : Z * Z * Z;
  out_classes : Z;
  channels : list Z;
  pool_every : Z;
  hidden_dims : list Z;
  conv_params : gmap string Z;
  activation_type : string;
  activation_params : kwargs;
  pooling_type : string;
  pooling_params : gmap string Z;
}.

(** What [_make_feature_extractor] leaves behind: the [nn.Sequential] it
    returns and the attributes [conv_out_w] and [conv_out_h] it sets. *)
Record extractor := Extractor {
  seq : list layer;
  conv_out_w : pynum;
  conv_out_h : pynum;
}.

(** A constructed model. *)
Record model := Model {
  self : args;
  feature_extractor : list layer;
  out_w : pynum;
  out_h : pynum;
  mlp : layer;
}.

(** The variables the loop of [_make_feature_extractor] updates. *)
Record loop_state := LoopState {
  layers : list layer;
  cur_w : Z;
  cur_h : Z;
  pool_count : Z;
}.

(** Line 92 (and 93): the dimension after a convolution. *)
Definition conv_dim (self : args) (d : Z) : result Z :=
  k ← py_lookup (conv_params self) "kernel_size";
  p ← py_lookup (conv_params self) "padding";
  s ← py_lookup (conv_params self) "stride";
  floor_truediv (d - k + 2 * p) s.

(** Line 97 (and 98): the dimension after a pooling. *)
Definition pool_dim (self : args) (d : Z) : result Z :=
  k ← py_lookup (pooling_params self) "kernel_size";
  floor_truediv d k.

Section Methods.
Context `{Torch}.

(** Lines 90-98: the body of the loop over the (cin, cout) pairs. *)
Definition loop_body (self : args) (pool_func : pool_ctor) (phi : layer)
    (st : loop_state) (c : Z * Z) : M (ctl loop_state) :=
  let '(cin, cout) := c in
  conv ← new_module (Conv2d cin cout (VInt <$> conv_params self));
  let layers := layers st ++ [conv] in
  let layers := layers ++ [phi] in
  w ← lift (conv_dim self (cur_w st));
  h ← lift (conv_dim self (cur_h st));
  let pool_count := pool_count st + 1 in
  r ← lift (py_mod pool_count (pool_every self));
  if r =? 0 then
    pool ← new_module (Pool pool_func (VInt <$> pooling_params self));
    let layers := layers ++ [pool] in
    w ← lift (pool_dim self w);
    h ← lift (pool_dim self h);
    mret (Continue (LoopState layers w h pool_count))
  else
    mret (Continue (LoopState layers w h pool_count)).

(** Lines 72-104. *)
Definition _make_feature_extractor (self : args) : M extractor :=
  let '(in_channels, in_h, in_w) := in_size self in
  pool_func ← lift (py_lookup POOLINGS (pooling_type self));
  act ← lift (py_lookup ACTIVATIONS (activation_type self));
  phi ← new_module (Activation act (activation_params self));
  st ← py_for (loop_body self pool_func phi)
         (zip (in_channels :: py_slice (channels self) None (Some (-1)))
              (py_slice (channels self) None None))
         (LoopState [] in_w in_h 0);
  mret (Extractor (layers st) (PInt (cur_w st)) (PInt (cur_h st))).

(** Lines 106-120.  [training] is the mode the modules of the model are in;
    the method itself does not change it. *)
Definition _n_features (training : bool) (self : args) (feature_extractor : list layer)
    : M Z :=
  rng_state ← get_rng_state;
  try_finally
    (let '(c, h, w) := in_size self in
     ext ← Sequential training feature_extractor
             (torch_unsqueeze0 (torch_zeros [c; h; w]));
     mret (torch_numel ext))
    (set_rng_state rng_state).

(** Lines 129-140. *)
Definition _make_mlp (training : bool) (self : args) (feature_extractor : list layer)
    : M layer :=
  act ← lift (py_lookup ACTIVATIONS (activation_type self));
  phi ← new_module (Activation act (activation_params self));
  n ← _n_features training self feature_extractor;
  new_module (MLP n (hidden_dims self ++ [out_classes self])
                (replicate (length (hidden_dims self)) (inl phi) ++ [inr "none"])).

(** Lines 51-69.  The call [self._make_feature_extractor()] is dispatched on
    the class of [self]; the method of that class is the argument [mfe].  A
    module is in training mode when it has just been instantiated, and
    nothing in [__init__] changes the mode. *)
Definition __init__ (mfe : args -> M extractor) (self : args) : M model :=
  _ ← lift (py_assert (bool_decide (channels self ≠ []) && bool_decide (hidden_dims self ≠ [])));
  if negb (py_in (activation_type self) ACTIVATIONS)
     || negb (py_in (pooling_type self) POOLINGS)
  then raise (ValueError "Unsupported activation or pooling type")
  else
    fe ← mfe self;
    mlp ← _make_mlp true self (seq fe);
    mret (Model self (seq fe) (conv_out_w fe) (conv_out_h fe) mlp).

(** Lines 142-153. *)
Definition forward (training : bool) (m : model) (x : tensor) : M tensor :=
  out ← Sequential training (feature_extractor m) x;
  b ← lift (py_getitem (tensor_shape out) 0);
  out ← lift (tensor_reshape out [b; -1]);
  out ← call training (mlp m) out;
  mret out.

End Methods.
End CNN.

(** ** class ResidualBlock *)

Module ResidualBlock.

(** The keyword arguments of [ResidualBlock.__init__] that have defaults. *)
Record opts := Opts {
  batchnorm : bool;
  dropout : Q;
  activation_type : string;
  activation_params : kwargs;
}.

(** The defaults of lines 166-169. *)
Definition default_opts : opts := Opts false (QArith_base.Qmake 0 1) "relu" ∅.

(** Keyword arguments of the convolutions of lines 216 and 229. *)
Definition main_conv_kw (kernel_size : Z) : kwargs :=
  {[ "kernel_size" := VInt kernel_size; "bias" := VBool true; "padding" := VStr "same" ]}.

Definition shortcut_conv_kw : kwargs :=
  {[ "kernel_size" := VInt 1; "bias" := VBool false; "padding" := VStr "same" ]}.

Section Methods.
Context `{Torch}.

(** Lines 215-224: the body of the loop over [range(len(kernel_sizes))]. *)
Definition loop_body (all_channels kernel_sizes : list Z) (kw : opts) (phi : layer)
    (main_layers : list layer) (i : Z) : M (ctl (list layer)) :=
  cin ← lift (py_getitem all_channels i);
  cout ← lift (py_getitem all_channels (i + 1));
  k ← lift (py_getitem kernel_sizes i);
  conv ← new_module (Conv2d cin cout (main_conv_kw k));
  let main_layers := main_layers ++ [conv] in
  if i =? len kernel_sizes - 1 then mret (Break main_layers)
  else
    main_layers ←
      (if Qpositive (dropout kw)
       then d ← new_module (Dropout2d (dropout kw)); mret (main_layers ++ [d])
       else mret main_layers);
    main_layers ←
      (if batchnorm kw
       then c ← lift (py_getitem all_channels (i + 1));
            b ← new_module (BatchNorm2d c);
            mret (main_layers ++ [b])
       else mret main_layers);
    mret (Continue (main_layers ++ [phi])).

(** Lines 187-231. *)
Definition __init__ (in_channels : Z) (channels kernel_sizes : list Z) (kw : opts)
    : M layer :=
  _ ← lift (py_assert (bool_decide (channels ≠ []) && bool_decide (kernel_sizes ≠ [])));
  _ ← lift (py_assert (len channels =? len kernel_sizes));
  _ ← lift (py_assert (forallb (fun x => x mod 2 =? 1) kernel_sizes));
  if negb (py_in (activation_type kw) ACTIVATIONS)
  then raise (ValueError "Unsupported activation type")
  else
    let all_channels := [in_channels] ++ py_slice channels None None in
    act ← lift (py_lookup ACTIVATIONS (activation_type kw));
    phi ← new_module (Activation act (activation_params kw));
    main_layers ← py_for (loop_body all_channels kernel_sizes kw phi)
                    (seqZ 0 (len kernel_sizes)) [];
    last ← lift (py_getitem channels (-1));
    short_layers ←
      (if in_channels =? last
       then i ← new_module Identity; mret [i]
       else last ← lift (py_getitem channels (-1));
            c ← new_module (Conv2d in_channels last shortcut_conv_kw);
            mret [c]);
    mret (ResidualBlock main_layers short_layers).

(** Lines 235-243: [forward] is the [ResidualBlock] case of [call]. *)
Definition forward (training : bool) (block : layer) (x : tensor) : M tensor :=
  call training block x.

End Methods.
End ResidualBlock.

(** ** class ResidualBottleneckBlock *)

Module ResidualBottleneckBlock.
Section Methods.
Context `{Torch}.

(** Lines 273-286.  The remaining keyword arguments are passed on to
    [ResidualBlock.__init__]. *)
Definition __init__ (in_out_channels : Z) (inner_channels inner_kernel_sizes : list Z)
    (kw : ResidualBlock.opts) : M layer :=
  _ ← lift (py_assert (0 <? len inner_channels));
  _ ← lift (py_assert (len inner_channels =? len inner_kernel_sizes));
  c0 ← lift (py_getitem inner_channels 0);
  let _inner_channels := [c0] ++ inner_channels ++ [in_out_channels] in
  let _inner_kernel_sizes := [1] ++ inner_kernel_sizes ++ [1] in
  ResidualBlock.__init__ in_out_channels _inner_channels _inner_kernel_sizes kw.

End Methods.
End ResidualBottleneckBlock.

(** ** class ResNet *)

Module ResNet.

(** The attributes of a [ResNet]: those of a [CNN] and three more. *)
Record args := Args {
  base : CNN.args;
  batchnorm : bool;
  dropout : Q;
  bottleneck : bool;
}.

(** The keyword arguments every block of the extractor is built with. *)
Definition block_opts (self : args) : ResidualBlock.opts :=
  ResidualBlock.Opts (batchnorm self) (dropout self)
    (CNN.activation_type (base self)) (CNN.activation_params (base self)).

Section Methods.
Context `{Torch}.

(** Lines 337-355: the body of the loop over [range(pools_num)]. *)
Definition loop_body (self : args) (all_channels : list Z) (pool_func : pool_ctor)
    (layers : list layer) (i : Z) : M (ctl (list layer)) :=
  let pool_every := CNN.pool_every (base self) in
  a ← lift (py_getitem all_channels (i * pool_every));
  b ← lift (py_getitem all_channels (pool_every * (i + 1)));
  block ←
    (if negb (a =? b) || negb (bottleneck self)
     then
       cin ← lift (py_getitem all_channels (i * pool_every));
       ResidualBlock.__init__ cin
         (py_slice all_channels (Some (i * pool_every + 1)) (Some ((i + 1) * pool_every + 1)))
         (py_repeat 3 pool_every) (block_opts self)
     else
       cin ← lift (py_getitem all_channels (i * pool_every));
       ResidualBottleneckBlock.__init__ cin
         (py_slice all_channels (Some (i * pool_every + 2)) (Some ((i + 1) * pool_every)))
         (py_repeat 3 (pool_every - 2)) (block_opts self));
  let layers := layers ++ [block] in
  pool ← new_module (Pool pool_func (VInt <$> CNN.pooling_params (base self)));
  let layers := layers ++ [pool] in
  mret (Continue layers).

(** Lines 356-374: the block for the channels that remain. *)
Definition remainder (self : args) (all_channels : list Z) (layers : list layer)
    : M (list layer) :=
  let pool_every := CNN.pool_every (base self) in
  length ← lift (py_mod (len (CNN.channels (base self))) pool_every);
  if 0 <? length then
    a ← lift (py_getitem all_channels (- length - 1));
    b ← lift (py_getitem all_channels (-1));
    block ←
      (if negb (a =? b) || negb (bottleneck self)
       then
         cin ← lift (py_getitem all_channels (- length - 1));
         ResidualBlock.__init__ cin
           (py_slice all_channels (Some (- length)) None)
           (py_repeat 3 length) (block_opts self)
       else
         cin ← lift (py_getitem all_channels (- length - 1));
         ResidualBottleneckBlock.__init__ cin
           (py_slice all_channels (Some (- length)) (Some (-1)))
           (py_repeat 3 (pool_every - 2)) (block_opts self));
    mret (layers ++ [block])
  else mret layers.

(** Lines 376-377: the recorded output dimension. *)
Definition recorded_dim (self : CNN.args) (pools_num : Z) (d : Z) : result pynum :=
  k ← py_lookup (CNN.pooling_params self) "kernel_size";
  q ← py_pow k pools_num;
  py_floordiv_num d q.

(** Lines 317-382. *)
Definition _make_feature_extractor (self : args) : M CNN.extractor :=
  let '(in_channels, in_h, in_w) := CNN.in_size (base self) in
  let all_channels := [in_channels] ++ CNN.channels (base self) in
  pool_func ← lift (py_lookup POOLINGS (CNN.pooling_type (base self)));
  pools_num ← lift (py_floordiv (len (CNN.channels (base self))) (CNN.pool_every (base self)));
  layers ← py_for (loop_body self all_channels pool_func) (seqZ 0 pools_num) [];
  layers ← remainder self all_channels layers;
  w ← lift (recorded_dim (base self) pools_num in_w);
  h ← lift (recorded_dim (base self) pools_num in_h);
  mret (CNN.Extractor layers w h).

(** Lines 309-314: [CNN.__init__] runs with the method of this class. *)
Definition __init__ (self : args) : M CNN.model :=
  CNN.__init__ (fun _ => _make_feature_extractor self) (base self).

End Methods.
End ResNet.

(** ** class YourCNN *)

Module YourCNN.

Record args := Args {
  base : CNN.args;
  batchnorm : bool;
  dropout : Q;
}.

Definition block_opts (self : args) : ResidualBlock.opts :=
  ResidualBlock.Opts (batchnorm self) (dropout self)
    (CNN.activation_type (base self)) (CNN.activation_params (base self)).

Section Methods.
Context `{Torch}.

(** Lines 419-427. *)
Definition loop_body (self : args) (all_channels : list Z) (pool_func : pool_ctor)
    (layers : list layer) (i : Z) : M (ctl (list layer)) :=
  let pool_every := CNN.pool_every (base self) in
  cin ← lift (py_getitem all_channels (i * pool_every));
  block ← ResidualBlock.__init__ cin
    (py_slice all_channels (Some (i * pool_every + 1)) (Some ((i + 1) * pool_every + 1)))
    (py_repeat 3 pool_every) (block_opts self);
  let layers := layers ++ [block] in
  pool ← new_module (Pool pool_func (VInt <$> CNN.pooling_params (base self)));
  let layers := layers ++ [pool] in
  mret (Continue layers).

(** Lines 428-436. *)
Definition remainder (self : args) (all_channels : list Z) (layers : list layer)
    : M (list layer) :=
  length ← lift (py_mod (len (CNN.channels (base self))) (CNN.pool_every (base self)));
  if 0 <? length then
    cin ← lift (py_getitem all_channels (- length - 1));
    block ← ResidualBlock.__init__ cin
      (py_slice all_channels (Some (- length)) None)
      (py_repeat 3 length) (block_opts self);
    mret (layers ++ [block])
  else mret layers.

(** Lines 412-441. *)
Definition _make_feature_extractor (self : args) : M CNN.extractor :=
  let '(in_channels, in_h, in_w) := CNN.in_size (base self) in
  let all_channels := [in_channels] ++ CNN.channels (base self) in
  pool_func ← lift (py_lookup POOLINGS (CNN.pooling_type (base self)));
  pools_num ← lift (py_floordiv (len (CNN.channels (base self))) (CNN.pool_every (base self)));
  layers ← py_for (loop_body self all_channels pool_func) (seqZ 0 pools_num) [];
  layers ← remainder self all_channels layers;
  w ← lift (ResNet.recorded_dim (base self) pools_num in_w);
  h ← lift (ResNet.recorded_dim (base self) pools_num in_h);
  mret (CNN.Extractor layers w h).

(** Lines 390-399. *)
Definition __init__ (self : args) : M CNN.model :=
  CNN.__init__ (fun _ => _make_feature_extractor self) (base self).

End Methods.
End YourCNN.

(** ** A reference instance of the torch interface

    Tensors are represented by their shapes and the random generator by the
    number of values drawn from it so far.  The shape rules are those of the
    torch documentation for batched (N, C, H, W) inputs with dilation 1; the
    validation torch does of the values of constructor arguments is not
    represented. *)

Module Shape.

Definition kw_int (kw : kwargs) (key : string) (default : Z) : Z :=
  match kw !! key with
  | Some (VInt z) => z
  | _ => default
  end.

Definition kw_bool (kw : kwargs) (key : string) (default : bool) : bool :=
  match kw !! key with
  | Some (VBool b) => b
  | _ => default
  end.

Definition prod (s : list Z) : Z := foldr Z.mul 1 s.

(** Output extent of a convolution or pooling window along one axis. *)
Definition window (d k stride padding : Z) : result Z :=
  if stride <=? 0 then Raise RuntimeError
  else
    let o := (d + 2 * padding - k) / stride + 1 in
    if o <=? 0 then Raise RuntimeError else Ok o.

Definition conv_extent (kw : kwargs) (d : Z) : result Z :=
  match kw !! "padding" with
  | Some (VStr "same") => Ok d
  | _ => window d (kw_int kw "kernel_size" 1) (kw_int kw "stride" 1) (kw_int kw "padding" 0)
  end.

Definition pool_extent (kw : kwargs) (d : Z) : result Z :=
  let k := kw_int kw "kernel_size" 1 in
  window d k (kw_int kw "stride" k) (kw_int kw "padding" 0).

(** Number of parameters a module draws from the generator when it is
    instantiated. *)
Fixpoint linear_params (d : Z) (dims : list Z) : Z :=
  match dims with
  | [] => 0
  | d' :: dims' => d * d' + d' + linear_params d' dims'
  end.

Definition drawn_at_init (l : layer) : Z :=
  match l with
  | Conv2d cin cout kw =>
      let k := kw_int kw "kernel_size" 1 in
      cout * cin * k * k + (if kw_bool kw "bias" true then cout else 0)
  | MLP in_dim dims _ => linear_params in_dim dims
  | _ => 0
  end.

(** Forward shape of a library module on a batched input. *)
Definition out_shape (l : layer) (training : bool) (x : list Z) : result (list Z) :=
  match l, x with
  | Conv2d cin cout kw, [b; c; h; w] =>
      if c =? cin then
        h' ← conv_extent kw h; w' ← conv_extent kw w; mret [b; cout; h'; w']
      else Raise RuntimeError
  | Pool _ kw, [b; c; h; w] =>
      h' ← pool_extent kw h; w' ← pool_extent kw w; mret [b; c; h'; w']
  | BatchNorm2d n, [b; c; h; w] =>
      if negb (c =? n) then Raise RuntimeError
      else if training && (b * h * w =? 1) then Raise (ValueError "Expected more than 1 value per channel when training")
      else Ok x
  | Dropout2d _, [b; c; h; w] => Ok x
  | Activation _ _, _ => Ok x
  | Identity, _ => Ok x
  | MLP in_dim dims _, [b; f] =>
      if f =? in_dim then Ok [b; List.last dims in_dim] else Raise RuntimeError
  | _, _ => Raise RuntimeError
  end.

(** Values a module draws from the generator in a forward pass: channel-wise
    dropout draws one per sample and channel, in training mode only. *)
Definition drawn_at_call (l : layer) (training : bool) (x : list Z) : Z :=
  match l, x with
  | Dropout2d p, b :: c :: _ =>
      if training && Qpositive p && (QArith_base.Qnum p <? Z.pos (QArith_base.Qden p))
      then b * c else 0
  | _, _ => 0
  end.

(** [x.reshape(target)], where one entry of [target] may be -1. *)
Definition reshape (x target : list Z) : result (list Z) :=
  let known := prod (filter (fun d => d ≠ -1) target) in
  match List.length (filter (fun d => d = -1) target) with
  | O => if prod x =? known then Ok target else Raise RuntimeError
  | S O =>
      if (known =? 0) || negb (prod x mod known =? 0) then Raise RuntimeError
      else Ok ((fun d => if d =? -1 then prod x / known else d) <$> target)
  | _ => Raise RuntimeError
  end.

(** Shape of [a + b] under broadcasting, on shapes of the same rank. *)
Fixpoint broadcast (a b : list Z) : result (list Z) :=
  match a, b with
  | [], [] => Ok []
  | x :: a', y :: b' =>
      r ← broadcast a' b';
      if x =? y then Ok (x :: r)
      else if x =? 1 then Ok (y :: r)
      else if y =? 1 then Ok (x :: r)
      else Raise RuntimeError
  | _, _ => Raise RuntimeError
  end.

End Shape.

Definition ShapeTorch : Torch := {|
  tensor := list Z;
  rng_state := Z;
  init_module := fun l g => g + Shape.drawn_at_init l;
  call_module := fun l training x g =>
    (Shape.out_shape l training x, g + Shape.drawn_at_call l training x);
  torch_zeros := fun s => s;
  torch_unsqueeze0 := fun s => 1 :: s;
  torch_numel := Shape.prod;
  tensor_shape := fun s => s;
  tensor_reshape := Shape.reshape;
  torch_add := Shape.broadcast;
  torch_relu := fun s => s;
|}.


(** * Vocabulary of the specification *)

(** ** Stages of the plain feature extractor (spec 4.1) *)

(** A stage-unit of the plain pipeline: a convolution with its activation,
    or a pooling. *)
Inductive stage :=
| ConvAct (cin cout : Z)
| PoolStage.

Definition conv_stage (c : Z * Z) : stage := ConvAct c.1 c.2.

(** The modules a stage-unit stands for. *)
Definition stage_layers (conv_kw : kwargs) (phi pool : layer) (s : stage) : list layer :=
  match s with
  | ConvAct cin cout => [Conv2d cin cout conv_kw; phi]
  | PoolStage => [pool]
  end.

(** The first [k] consecutive groups of [p] elements of a list. *)
Fixpoint chunks {A} (p k : nat) (l : list A) : list (list A) :=
  match k with
  | O => []
  | S k' => take p l :: chunks p k' (drop p l)
  end.

(** [[(CONV -> ACT)*P -> POOL]*(N/P)], then the N mod P stages that remain,
    for the N (cin, cout) pairs of the convolutions. *)
Definition grouped (p : nat) (pairs : list (Z * Z)) : list stage :=
  let n := length pairs in
  flat_map (fun g => (conv_stage <$> g) ++ [PoolStage]) (chunks p (n / p) pairs)
  ++ (conv_stage <$> drop (p * (n / p)) pairs).

(** The stages as the loop emits them, one convolution at a time, with the
    number [c] of convolutions emitted before. *)
Fixpoint emitted (P : Z) (c : Z) (pairs : list (Z * Z)) : list stage :=
  match pairs with
  | [] => []
  | x :: pairs' =>
      conv_stage x
      :: (if (c + 1) mod P =? 0 then [PoolStage] else [])
      ++ emitted P (c + 1) pairs'
  end.

(** The dimension rule of spec 4.1, by the kind of module: after a
    convolution with kernel size [k], padding [p] and stride [s], and after
    a pooling with kernel size [pk]. *)
Definition dim_after (k p s pk : Z) (d : Z) (l : layer) : Z :=
  match l with
  | Conv2d _ _ _ => (d - k + 2 * p) / s
  | Pool _ _ => d / pk
  | _ => d
  end.

(** The division a stage-unit performs on a dimension [d], as the pair of
    its operands: a convolution stage divides [d - k + 2 * p] by the stride
    [s], a pooling stage divides [d] by the pooling kernel size [pk]. *)
Definition stage_division (k p s pk : Z) (d : Z) (st : stage) : Z * Z :=
  match st with
  | ConvAct _ _ => (d - k + 2 * p, s)
  | PoolStage => (d, pk)
  end.

(** The dimension rule of spec 4.1, by stage-unit: the quotient of the
    stage's division, rounded down. *)
Definition stage_dim (k p s pk : Z) (d : Z) (st : stage) : Z :=
  (stage_division k p s pk d st).1 / (stage_division k p s pk d st).2.

(** Operands for which [math.floor(a / b)] is the quotient rounded down.
    The float [a / b] is the binary64 value nearest to the quotient; when
    both operands are at most 2^52 in magnitude it stays between the two
    integers that enclose the quotient.  From 2^53 on the float is rounded
    to an even integer, and a quotient above the largest float raises an
    OverflowError. *)
Definition float_int_bound : Z := 2 ^ 52.

Definition float_exact (a b : Z) : Prop :=
  Z.abs a <= float_int_bound /\ 0 < Z.abs b <= float_int_bound.

(** A dimension [d] that stays in this range through the stage-units of
    [n] convolutions, at most [2 * n], with kernel size [k] and padding
    [p]: a stage-unit raises its magnitude by at most [|k| + 2 |p|]. *)
Definition dim_in_range (n : nat) (k p d : Z) : Prop :=
  Z.abs d + 2 * Z.of_nat n * (Z.abs k + 2 * Z.abs p) <= float_int_bound.

(** ** Total correctness of a computation *)

(** [returns m w post]: run in the state [w], the computation [m] raises
    nothing and returns a value that satisfies [post]. *)
Definition returns `{Torch} {A} (m : M A) (w : world) (post : A -> Prop) : Prop :=
  exists a w', m w = (Ok a, w') /\ post a.

(** [raises m w e]: run in the state [w], the computation [m] raises [e]. *)
Definition raises `{Torch} {A} (m : M A) (w : world) (e : exn) : Prop :=
  exists w', m w = (Raise e, w').

(** ** Valid configurations of the plain extractor *)

(** The pooling interval is positive, the convolution parameters give the
    kernel size [k], the padding [p] and a stride [s] other than zero, the
    pooling parameters give a kernel size [pk] other than zero, and the
    activation and pooling kinds are those of the constructors [act] and
    [f] of the two tables. *)
Record plain_valid (self : CNN.args) (k p s pk : Z) (act : act_ctor) (f : pool_ctor)
    : Prop := PlainValid {
  pv_pool_every : 0 < CNN.pool_every self;
  pv_kernel_size : CNN.conv_params self !! "kernel_size" = Some k;
  pv_padding : CNN.conv_params self !! "padding" = Some p;
  pv_stride : CNN.conv_params self !! "stride" = Some s;
  pv_stride_nonzero : s ≠ 0;
  pv_pool_kernel_size : CNN.pooling_params self !! "kernel_size" = Some pk;
  pv_pool_kernel_nonzero : pk ≠ 0;
  pv_activation : ACTIVATIONS !! CNN.activation_type self = Some act;
  pv_pooling : POOLINGS !! CNN.pooling_type self = Some f;
}.


(** ** Topology of a residual block (spec 4.3 and 4.4) *)

(** What follows a convolution of the main path that is not the last one:
    dropout if its probability is positive, then batch normalization of the
    convolution's output channels if it is enabled, then the activation. *)
Definition after_conv (kw : ResidualBlock.opts) (phi : layer) (cout : Z) : list layer :=
  (if Qpositive (ResidualBlock.dropout kw)
   then [Dropout2d (ResidualBlock.dropout kw)] else [])
  ++ (if ResidualBlock.batchnorm kw then [BatchNorm2d cout] else [])
  ++ [phi].

(** The main path: one convolution per channel entry, from the channel
    count before it to its own, with its kernel size, same-size padding and
    a bias; [after_conv] after each but the last. *)
Fixpoint main_path_spec (kw : ResidualBlock.opts) (phi : layer) (cin : Z)
    (channels kernel_sizes : list Z) : list layer :=
  match channels, kernel_sizes with
  | c :: cs, k :: ks =>
      Conv2d cin c (ResidualBlock.main_conv_kw k)
      :: match cs with
         | [] => []
         | _ :: _ => after_conv kw phi c ++ main_path_spec kw phi c cs ks
         end
  | _, _ => []
  end.

(** The shortcut path: the identity when the input channel count is the
    last channel entry, and otherwise one 1x1 convolution without bias. *)
Definition shortcut_path_spec (cin : Z) (channels : list Z) : list layer :=
  if cin =? List.last channels cin then [Identity]
  else [Conv2d cin (List.last channels cin) ResidualBlock.shortcut_conv_kw].

Definition residual_block_spec (kw : ResidualBlock.opts) (act : act_ctor) (cin : Z)
    (channels kernel_sizes : list Z) : layer :=
  ResidualBlock
    (main_path_spec kw (Activation act (ResidualBlock.activation_params kw))
       cin channels kernel_sizes)
    (shortcut_path_spec cin channels).

(** A module with learned parameters. *)
Fixpoint has_parameters (l : layer) : bool :=
  match l with
  | Conv2d _ _ _ | BatchNorm2d _ | MLP _ _ _ => true
  | ResidualBlock main_path shortcut_path =>
      existsb has_parameters main_path || existsb has_parameters shortcut_path
  | Activation _ _ | Pool _ _ | Dropout2d _ | Identity => false
  end.

(** A valid ResidualBlockSpec: channel and kernel-size sequences that are
    not empty and of equal length, odd kernel sizes, and a supported
    activation kind, the one of the constructor [act]. *)
Record block_valid (channels kernel_sizes : list Z) (kw : ResidualBlock.opts)
    (act : act_ctor) : Prop := BlockValid {
  bv_channels : channels ≠ [];
  bv_length : length channels = length kernel_sizes;
  bv_odd : Forall (fun k => k mod 2 = 1) kernel_sizes;
  bv_activation : ACTIVATIONS !! ResidualBlock.activation_type kw = Some act;
}.

(** ** Groups of the residual feature extractor (spec 4.5) *)

Module ResNetSpec.
Section Groups.
Variables (self : ResNet.args) (act : act_ctor).

(** The input channel count followed by the channel sequence. *)
Definition all_channels : list Z :=
  (CNN.in_size (ResNet.base self)).1.1 :: CNN.channels (ResNet.base self).

Definition N : nat := length (CNN.channels (ResNet.base self)).
Definition P : nat := Z.to_nat (CNN.pool_every (ResNet.base self)).

Definition channel_at (j : nat) : Z := nth j all_channels 0.






(** The remainder group: the last [N mod P] channels. *)
Definition L : nat := (N mod P)%nat.
Definition remainder_in : Z := channel_at (N - L).
Definition remainder_selects_bottleneck : bool :=
  ResNet.bottleneck self && (remainder_in =? channel_at N).


(** The block the remainder group gets when it selects the bottleneck
    form: its inner channels are the remaining channels without the last,
    its inner kernel sizes are as many as in a complete group. *)
Definition remainder_bottleneck_block : layer :=
  let inner := take (L - 1) (drop (N - L + 1) all_channels) in
  residual_block_spec (ResNet.block_opts self) act remainder_in
    ([List.hd 0 inner] ++ inner ++ [remainder_in])
    ([1] ++ replicate (P - 2) 3 ++ [1]).





End Groups.
End ResNetSpec.


(** ** Shapes of tensors *)

(** What the third claim about the classifier head needs of the torch
    library: the element count is the product of the shape; [zeros],
    [unsqueeze], [relu] and [reshape] have the shapes of the documentation;
    and a module (or an addition) that accepts one sample in training mode
    accepts any batch of such samples in any mode and gives the same shape
    per sample. *)
Record shape_lawful `{Torch} : Prop := ShapeLawful {
  sl_numel : forall x, torch_numel x = Shape.prod (tensor_shape x);
  sl_zeros : forall s, tensor_shape (torch_zeros s) = s;
  sl_unsqueeze : forall x, tensor_shape (torch_unsqueeze0 x) = 1 :: tensor_shape x;
  sl_relu : forall x, tensor_shape (torch_relu x) = tensor_shape x;
  sl_reshape : forall x b s,
    tensor_shape x = b :: s -> 0 < b ->
    exists y, tensor_reshape x [b; -1] = Ok y /\ tensor_shape y = [b; Shape.prod s];
  sl_call : forall l x g y g' s,
    call_module l true x g = (Ok y, g') -> tensor_shape x = 1 :: s ->
    exists s', tensor_shape y = 1 :: s'
      /\ forall t x2 g2 b, 0 < b -> tensor_shape x2 = b :: s ->
           exists y2 g2', call_module l t x2 g2 = (Ok y2, g2') /\ tensor_shape y2 = b :: s';
  sl_add : forall a b c s1 s2,
    torch_add a b = Ok c -> tensor_shape a = 1 :: s1 -> tensor_shape b = 1 :: s2 ->
    exists s3, tensor_shape c = 1 :: s3
      /\ forall a2 b2 n, 0 < n -> tensor_shape a2 = n :: s1 -> tensor_shape b2 = n :: s2 ->
           exists c2, torch_add a2 b2 = Ok c2 /\ tensor_shape c2 = n :: s3;
  sl_mlp : forall in_dim dims nonlins t x g b,
    0 < b -> tensor_shape x = [b; in_dim] ->
    exists y g', call_module (MLP in_dim dims nonlins) t x g = (Ok y, g')
                 /\ tensor_shape y = [b; List.last dims in_dim];
}.

(** A run that accepts one sample in training mode accepts a batch of such
    samples in any mode, with the same shape per sample. *)
Definition uniform `{Torch} (run : bool -> tensor -> M tensor) : Prop :=
  forall x w y w' s,
    run true x w = (Ok y, w') -> tensor_shape x = 1 :: s ->
    exists s', tensor_shape y = 1 :: s'
      /\ forall t x2 w2 b, 0 < b -> tensor_shape x2 = b :: s ->
           exists y2 w2', run t x2 w2 = (Ok y2, w2') /\ tensor_shape y2 = b :: s'.

(** A module of the torch library, as opposed to a [ResidualBlock]. *)
Definition is_library_module (l : layer) : bool :=
  match l with
  | ResidualBlock _ _ => false
  | _ => true
  end.



(** A convolution module. *)
Definition is_conv (l : layer) : bool :=
  match l with
  | Conv2d _ _ _ => true
  | _ => false
  end.

(** ** Example configurations *)

Module Examples.

Definition conv_params : gmap string Z :=
  {[ "kernel_size" := 3; "stride" := 1; "padding" := 1 ]}.

Definition pooling_params : gmap string Z := {[ "kernel_size" := 2 ]}.

(** The end-to-end scenario of spec 8, with one more convolution. *)
Definition cnn : CNN.args :=
  CNN.Args (3, 32, 32) 5 [16; 32; 64] 2 [10] conv_params "relu" ∅ "max" pooling_params.

Definition w0 : @world ShapeTorch := @World Z 0 [].

(** A residual network whose blocks have dropout. *)
Definition resnet_dropout : ResNet.args :=
  ResNet.Args
    (CNN.Args (3, 8, 8) 2 [4; 4] 2 [5] conv_params "relu" ∅ "max" pooling_params)
    false (QArith_base.Qmake 1 2) false.



(** Configurations with a pooling interval of zero. *)
Definition cnn_interval_zero : CNN.args :=
  CNN.Args (3, 32, 32) 5 [16; 32; 64] 0 [10] conv_params "relu" ∅ "max" pooling_params.

Definition resnet_interval_zero : ResNet.args :=
  ResNet.Args cnn_interval_zero false (QArith_base.Qmake 0 1) true.

(** A residual network in bottleneck mode with one remaining channel whose
    input and output channel counts are equal. *)
Definition resnet_remainder_one : ResNet.args :=
  ResNet.Args
    (CNN.Args (4, 8, 8) 2 [6; 5; 8; 8] 3 [5] conv_params "relu" ∅ "max" pooling_params)
    false (QArith_base.Qmake 0 1) true.

(** A residual network in bottleneck mode with groups of three
    convolutions and two remaining channels whose input and output channel
    counts are equal. *)
Definition resnet_remainder_two : ResNet.args :=
  ResNet.Args
    (CNN.Args (3, 8, 8) 2 [6; 5; 4; 7; 4] 3 [5] conv_params "relu" ∅ "max" pooling_params)
    false (QArith_base.Qmake 0 1) true.

(** A residual network with a negative pooling interval. *)
Definition resnet_interval_negative : ResNet.args :=
  ResNet.Args
    (CNN.Args (4, 8, 8) 2 [6; 5; 4; 4] (-2) [5] conv_params "relu" ∅ "max" pooling_params)
    false (QArith_base.Qmake 0 1) true.

(** A configuration whose convolution parameters lack the padding. *)
Definition cnn_no_padding : CNN.args :=
  CNN.Args (3, 32, 32) 5 [16; 32; 64] 2 [10] {[ "kernel_size" := 3 ]} "relu" ∅ "max"
    pooling_params.

(** A configuration without channels. *)
Definition cnn_no_channels : CNN.args :=
  CNN.Args (3, 32, 32) 5 [] 2 [10] conv_params "relu" ∅ "max" pooling_params.

(** A configuration with an activation kind that is not in the table. *)
Definition cnn_tanh : CNN.args :=
  CNN.Args (3, 32, 32) 5 [16; 32; 64] 2 [10] conv_params "tanh" ∅ "max" pooling_params.

(** A block with dropout, batch normalization and leaky ReLU. *)
Definition block_opts : ResidualBlock.opts :=
  ResidualBlock.Opts true (QArith_base.Qmake 1 2) "lrelu"
    {[ "negative_slope" := VFloat (QArith_base.Qmake 1 100) ]}.

End Examples.
(** * Properties *)

(** ** The monad *)

Section MonadFacts.
Context `{Torch}.

Lemma bind_Ok {A B} (m : M A) (f : A -> M B) w a w' :
  m w = (Ok a, w') -> (m ≫= f) w = f a w'.
Proof. intros E. unfold mbind, M_bind. now rewrite E. Qed.

Lemma bind_Raise {A B} (m : M A) (f : A -> M B) w e w' :
  m w = (Raise e, w') -> (m ≫= f) w = (Raise e, w').
Proof. intros E. unfold mbind, M_bind. now rewrite E. Qed.

Lemma bind_lift_Ok {A B} (a : A) (f : A -> M B) w :
  (lift (Ok a) ≫= f) w = f a w.
Proof. reflexivity. Qed.

Lemma bind_lift_Raise {A B} e (f : A -> M B) w :
  (lift (Raise e) ≫= f) w = (Raise e, w).
Proof. reflexivity. Qed.

Lemma bind_lift {A B} (r : result A) (f : A -> M B) w a :
  r = Ok a -> (lift r ≫= f) w = f a w.
Proof. now intros ->. Qed.

Lemma new_module_Ok (l : layer) w :
  ctor_check l = Ok tt ->
  new_module l w = (Ok l, World (init_module l (rng w)) (built w ++ [l])).
Proof. intros E. unfold new_module. now rewrite E. Qed.

Lemma bind_inv_Ok {A B} (m : M A) (f : A -> M B) w b w' :
  (m ≫= f) w = (Ok b, w') ->
  exists a w1, m w = (Ok a, w1) /\ f a w1 = (Ok b, w').
Proof.
  unfold mbind, M_bind. destruct (m w) as [[a|e] w1]; intros E.
  - now exists a, w1.
  - discriminate.
Qed.

End MonadFacts.

(** ** Python lists *)

Lemma py_slice_all {A} (l : list A) : py_slice l None None = l.
Proof.
  unfold py_slice. simpl. rewrite Z.sub_0_r, Nat2Z.id, drop_0.
  apply firstn_all.
Qed.

Lemma py_slice_init {A} (l : list A) :
  py_slice l None (Some (-1)) = take (length l - 1)%nat l.
Proof.
  unfold py_slice, py_clamp. simpl. rewrite drop_0.
  destruct l as [|a l]; [reflexivity|].
  f_equal. cbn [length]. lia.
Qed.

Lemma zip_init_r {A B} (l1 : list A) (l2 : list B) :
  (length l2 ≤ length l1)%nat ->
  zip l1 l2 = zip (take (length l2) l1) l2.
Proof.
  revert l1. induction l2 as [|b l2 IH]; intros [|a l1]; simpl; intros Hl;
    try reflexivity; try lia.
  f_equal. apply IH. lia.
Qed.

(** The pairs the loop of [CNN._make_feature_extractor] runs over are the
    consecutive pairs of the channel sequence prefixed with the input
    channel count. *)
Lemma CNN_pairs (c : Z) (channels : list Z) :
  zip (c :: py_slice channels None (Some (-1))) (py_slice channels None None)
  = zip (c :: channels) channels.
Proof.
  rewrite py_slice_all, py_slice_init.
  rewrite (zip_init_r (c :: channels) channels) by (simpl; lia).
  destruct channels as [|a l]; [reflexivity|].
  simpl. now rewrite ?Nat.sub_0_r.
Qed.

Lemma length_CNN_pairs (c : Z) (channels : list Z) :
  length (zip (c :: channels) channels) = length channels.
Proof.
  revert c. induction channels as [|a l IH]; intros c; [reflexivity|].
  change (S (length (zip (a :: l) l)) = S (length l)). now rewrite IH.
Qed.

(** ** The plain feature extractor *)

Lemma chunks_length {A} (p k : nat) (l : list A) :
  length (chunks p k l) = k.
Proof. revert l. induction k as [|k IH]; intros l; simpl; [|rewrite IH]; reflexivity. Qed.

Lemma chunks_full {A} (p k : nat) (l : list A) :
  (k * p ≤ length l)%nat -> Forall (fun g => length g = p) (chunks p k l).
Proof.
  revert l. induction k as [|k IH]; intros l Hl; simpl; constructor.
  - rewrite length_take. lia.
  - apply IH. rewrite length_drop. lia.
Qed.

Section Emitted.
Variable P : Z.
Hypothesis HP : 0 < P.

(** Within a group no pooling is emitted. *)
Lemma emitted_within (g rest : list (Z * Z)) (q r : Z) :
  0 <= r -> r + len g < P ->
  emitted P (P * q + r) (g ++ rest)
  = (conv_stage <$> g) ++ emitted P (P * q + r + len g) rest.
Proof.
  revert r. induction g as [|x g IH]; intros r Hr Hlen.
  - simpl. unfold len. simpl. now rewrite Z.add_0_r.
  - unfold len in *. cbn [length] in Hlen. rewrite Nat2Z.inj_succ in Hlen.
    cbn [app emitted fmap list_fmap].
    replace ((P * q + r + 1) mod P) with (r + 1).
    2:{ replace (P * q + r + 1) with (r + 1 + q * P) by lia.
        rewrite Z_mod_plus_full. symmetry. apply Z.mod_small. lia. }
    destruct (r + 1 =? 0) eqn:E; [lia|]. cbn [app].
    f_equal. rewrite <- Z.add_assoc. rewrite (IH (r + 1)) by lia.
    f_equal. f_equal. cbn [length]. lia.
Qed.

(** A complete group ends with a pooling. *)
Lemma emitted_group (g rest : list (Z * Z)) (q : Z) :
  len g = P ->
  emitted P (P * q) (g ++ rest)
  = (conv_stage <$> g) ++ [PoolStage] ++ emitted P (P * (q + 1)) rest.
Proof.
  intros Hg.
  destruct (decide (g = [])) as [->|Hne]; [unfold len in Hg; simpl in Hg; lia|].
  destruct (exists_last Hne) as (g' & x & ->).
  unfold len in Hg. rewrite length_app in Hg. cbn [length] in Hg.
  rewrite <- app_assoc.
  replace (P * q) with (P * q + 0) by lia.
  rewrite emitted_within by (unfold len; lia).
  rewrite fmap_app, <- app_assoc. f_equal.
  cbn [app emitted fmap list_fmap].
  replace (P * q + 0 + len g' + 1) with (P * (q + 1)) by (unfold len; lia).
  replace (P * (q + 1)) with (0 + (q + 1) * P) at 1 by lia.
  rewrite Z_mod_plus_full, Z.mod_0_l by lia. reflexivity.
Qed.

Lemma emitted_grouped_from (k : nat) (pairs : list (Z * Z)) (q : Z) :
  (k * Z.to_nat P ≤ length pairs)%nat ->
  emitted P (P * q) pairs
  = flat_map (fun g => (conv_stage <$> g) ++ [PoolStage]) (chunks (Z.to_nat P) k pairs)
    ++ emitted P (P * (q + Z.of_nat k)) (drop (k * Z.to_nat P) pairs).
Proof.
  revert pairs q. induction k as [|k IH]; intros pairs q Hk.
  - simpl. now rewrite Z.add_0_r.
  - cbn [chunks flat_map].
    rewrite <- (take_drop (Z.to_nat P) pairs) at 1.
    rewrite emitted_group by (unfold len; rewrite length_take; lia).
    rewrite <- !app_assoc. f_equal. f_equal.
    rewrite IH by (rewrite length_drop; lia).
    f_equal. rewrite drop_drop.
    replace (Z.to_nat P + k * Z.to_nat P)%nat with (S k * Z.to_nat P)%nat by lia.
    replace (q + 1 + Z.of_nat k) with (q + Z.of_nat (S k)) by lia. reflexivity.
Qed.

(** The loop emits the grouped pipeline. *)
Lemma emitted_grouped (pairs : list (Z * Z)) :
  emitted P 0 pairs = grouped (Z.to_nat P) pairs.
Proof.
  unfold grouped.
  set (p := Z.to_nat P). set (n := length pairs).
  assert (Hp : (0 < p)%nat) by (subst p; lia).
  pose proof (Nat.div_mod_eq n p) as Hdm.
  pose proof (Nat.mod_upper_bound n p ltac:(lia)) as Hmod.
  replace 0 with (P * 0) by lia.
  rewrite (emitted_grouped_from (n / p)) by (fold p; subst n; lia).
  fold p. f_equal.
  rewrite (Nat.mul_comm p).
  set (rest := drop (n / p * p) pairs).
  assert (Hrest : length rest = (n mod p)%nat)
    by (subst rest; rewrite length_drop; subst n; lia).
  rewrite <- (app_nil_r rest) at 1.
  replace (P * (0 + Z.of_nat (n / p))) with (P * Z.of_nat (n / p) + 0) by lia.
  rewrite emitted_within by (unfold len; lia).
  simpl. now rewrite app_nil_r.
Qed.

End Emitted.

(** Number of stage-units of the grouped pipeline. *)
Lemma grouped_length (p : nat) (pairs : list (Z * Z)) :
  (0 < p)%nat ->
  length (grouped p pairs) = (length pairs + length pairs / p)%nat.
Proof.
  intros Hp. unfold grouped.
  set (n := length pairs).
  pose proof (Nat.div_mod_eq n p) as Hdm.
  rewrite length_app, length_fmap, length_drop. fold n.
  assert (Hc : forall k l, (k * p ≤ length l)%nat ->
     length (flat_map (fun g : list (Z * Z) => (conv_stage <$> g) ++ [PoolStage])
               (chunks p k l)) = (k * p + k)%nat).
  { induction k as [|k IH]; intros l Hl; [reflexivity|].
    cbn [chunks flat_map]. rewrite !length_app, length_fmap, length_take.
    rewrite IH by (rewrite length_drop; lia). simpl. lia. }
  rewrite Hc by (fold n; lia). lia.
Qed.

Section PlainLoop.
Context `{Torch}.
Variables (self : CNN.args) (k p s pk : Z) (act : act_ctor) (f : pool_ctor).
Hypothesis HP : 0 < CNN.pool_every self.
Hypothesis Hk : CNN.conv_params self !! "kernel_size" = Some k.
Hypothesis Hp : CNN.conv_params self !! "padding" = Some p.
Hypothesis Hs : CNN.conv_params self !! "stride" = Some s.
Hypothesis Hs0 : s ≠ 0.
Hypothesis Hpk : CNN.pooling_params self !! "kernel_size" = Some pk.
Hypothesis Hpk0 : pk ≠ 0.

Let conv_kw : kwargs := VInt <$> CNN.conv_params self.
Let phi : layer := Activation act (CNN.activation_params self).
Let pool : layer := Pool f (VInt <$> CNN.pooling_params self).
Let P : Z := CNN.pool_every self.

Lemma conv_dim_Ok (d : Z) : CNN.conv_dim self d = Ok ((d - k + 2 * p) / s).
Proof.
  unfold CNN.conv_dim, py_lookup. rewrite Hk, Hp, Hs. cbn.
  unfold floor_truediv. destruct (Z.eqb_spec s 0); [contradiction|reflexivity].
Qed.

Lemma pool_dim_Ok (d : Z) : CNN.pool_dim self d = Ok (d / pk).
Proof.
  unfold CNN.pool_dim, py_lookup. rewrite Hpk. cbn.
  unfold floor_truediv. destruct (Z.eqb_spec pk 0); [contradiction|reflexivity].
Qed.

Lemma conv_check (cin cout : Z) : ctor_check (Conv2d cin cout conv_kw) = Ok tt.
Proof.
  unfold ctor_check, py_in, conv_kw. rewrite lookup_fmap, Hk.
  rewrite bool_decide_eq_true_2; [reflexivity|]. now eexists.
Qed.

Lemma pool_check : ctor_check pool = Ok tt.
Proof.
  unfold pool, ctor_check, py_in. rewrite lookup_fmap, Hpk.
  rewrite bool_decide_eq_true_2; [reflexivity|]. now eexists.
Qed.

(** One iteration of the loop: what it appends and how it updates the
    dimensions and the counter. *)
Lemma loop_body_run (st : CNN.loop_state) (c : Z * Z) (w : world) :
  exists st' w',
    CNN.loop_body self f phi st c w = (Ok (Continue st'), w')
    /\ CNN.layers st' = CNN.layers st
         ++ flat_map (stage_layers conv_kw phi pool) (emitted P (CNN.pool_count st) [c])
    /\ CNN.cur_w st' = fold_left (dim_after k p s pk)
         (flat_map (stage_layers conv_kw phi pool) (emitted P (CNN.pool_count st) [c]))
         (CNN.cur_w st)
    /\ CNN.cur_h st' = fold_left (dim_after k p s pk)
         (flat_map (stage_layers conv_kw phi pool) (emitted P (CNN.pool_count st) [c]))
         (CNN.cur_h st)
    /\ CNN.pool_count st' = CNN.pool_count st + 1.
Proof.
  destruct c as [cin cout]. unfold CNN.loop_body.
  fold conv_kw. fold pool.
  erewrite bind_Ok by (apply new_module_Ok, conv_check).
  rewrite !conv_dim_Ok, !bind_lift_Ok.
  unfold py_mod. destruct (Z.eqb_spec (CNN.pool_every self) 0) as [E|_]; [lia|].
  rewrite bind_lift_Ok. fold P. cbn [emitted].
  destruct ((CNN.pool_count st + 1) mod P =? 0).
  - erewrite bind_Ok by (apply new_module_Ok, pool_check).
    rewrite !pool_dim_Ok, !bind_lift_Ok.
    eexists _, _. split; [reflexivity|]. cbn.
    rewrite <- !app_assoc. auto.
  - eexists _, _. split; [reflexivity|]. cbn.
    rewrite <- !app_assoc. auto.
Qed.

Lemma emitted_cons (c : Z) (x : Z * Z) (pairs : list (Z * Z)) :
  emitted P c (x :: pairs) = emitted P c [x] ++ emitted P (c + 1) pairs.
Proof. cbn [emitted]. now rewrite app_nil_r, app_comm_cons. Qed.

(** The whole loop. *)
Lemma py_for_run (pairs : list (Z * Z)) (st : CNN.loop_state) (w : world) :
  exists st' w',
    py_for (CNN.loop_body self f phi) pairs st w = (Ok st', w')
    /\ CNN.layers st' = CNN.layers st
         ++ flat_map (stage_layers conv_kw phi pool) (emitted P (CNN.pool_count st) pairs)
    /\ CNN.cur_w st' = fold_left (dim_after k p s pk)
         (flat_map (stage_layers conv_kw phi pool) (emitted P (CNN.pool_count st) pairs))
         (CNN.cur_w st)
    /\ CNN.cur_h st' = fold_left (dim_after k p s pk)
         (flat_map (stage_layers conv_kw phi pool) (emitted P (CNN.pool_count st) pairs))
         (CNN.cur_h st).
Proof.
  revert st w. induction pairs as [|c pairs IH]; intros st w.
  - exists st, w. cbn. now rewrite app_nil_r.
  - destruct (loop_body_run st c w) as (st1 & w1 & E1 & L1 & W1 & H1 & C1).
    destruct (IH st1 w1) as (st2 & w2 & E2 & L2 & W2 & H2).
    exists st2, w2. cbn [py_for]. rewrite (bind_Ok _ _ _ _ _ E1).
    rewrite emitted_cons, flat_map_app, !fold_left_app.
    rewrite C1 in *. rewrite <- W1, <- H1, app_assoc, <- L1. auto.
Qed.

Lemma make_feature_extractor_run (w : world) :
  ACTIVATIONS !! CNN.activation_type self = Some act ->
  POOLINGS !! CNN.pooling_type self = Some f ->
  exists e w',
    CNN._make_feature_extractor self w = (Ok e, w')
    /\ CNN.seq e = flat_map (stage_layers conv_kw phi pool)
         (grouped (Z.to_nat P)
            (zip ((CNN.in_size self).1.1 :: CNN.channels self) (CNN.channels self)))
    /\ CNN.conv_out_w e
       = PInt (fold_left (dim_after k p s pk) (CNN.seq e) (CNN.in_size self).2)
    /\ CNN.conv_out_h e
       = PInt (fold_left (dim_after k p s pk) (CNN.seq e) (CNN.in_size self).1.2).
Proof.
  intros Hact Hf. unfold CNN._make_feature_extractor.
  destruct (CNN.in_size self) as [[in_channels in_h] in_w]. cbn [fst snd].
  unfold py_lookup. rewrite Hf, Hact, !bind_lift_Ok.
  erewrite bind_Ok by (apply new_module_Ok; reflexivity).
  rewrite CNN_pairs. fold phi.
  match goal with |- context [(py_for _ ?l ?st ≫= _) ?w1] =>
    destruct (py_for_run l st w1) as (st' & w' & E & L & W & Hh) end.
  rewrite (bind_Ok _ _ _ _ _ E).
  cbn [CNN.layers CNN.pool_count CNN.cur_w CNN.cur_h app] in L, W, Hh.
  rewrite emitted_grouped in L, W, Hh by exact HP.
  eexists _, _. split; [reflexivity|]. cbn [CNN.seq CNN.conv_out_w CNN.conv_out_h].
  rewrite L, W, Hh. auto.
Qed.

End PlainLoop.

(** C1: for a valid configuration with N channel entries and pooling
    interval P, [CNN._make_feature_extractor] returns the pipeline
    [(CONV -> ACT) * P -> POOL] repeated N / P times, followed by the
    N mod P convolution stages that remain and no pooling after them; the
    pipeline has N + N / P stage-units. *)
Theorem CNN_pipeline_grouped `{Torch} (self : CNN.args) (k p s pk : Z)
    (act : act_ctor) (f : pool_ctor) (w : world) :
  plain_valid self k p s pk act f ->
  let N := length (CNN.channels self) in
  let P := Z.to_nat (CNN.pool_every self) in
  let pairs := zip ((CNN.in_size self).1.1 :: CNN.channels self) (CNN.channels self) in
  returns (CNN._make_feature_extractor self) w (fun e =>
    CNN.seq e
    = flat_map (stage_layers (VInt <$> CNN.conv_params self)
                  (Activation act (CNN.activation_params self))
                  (Pool f (VInt <$> CNN.pooling_params self)))
        (flat_map (fun g => (conv_stage <$> g) ++ [PoolStage]) (chunks P (N / P) pairs)
         ++ (conv_stage <$> drop (P * (N / P)) pairs)))
  /\ length pairs = N
  /\ length (chunks P (N / P) pairs) = (N / P)%nat
  /\ Forall (fun g => length g = P) (chunks P (N / P) pairs)
  /\ length (drop (P * (N / P)) pairs) = (N mod P)%nat
  /\ length (flat_map (fun g => (conv_stage <$> g) ++ [PoolStage]) (chunks P (N / P) pairs)
             ++ (conv_stage <$> drop (P * (N / P)) pairs))
     = (N + N / P)%nat.
Proof.
  intros [HP Hk Hp Hs Hs0 Hpk Hpk0 Hact Hf] N P pairs.
  assert (HN : length pairs = N) by apply length_CNN_pairs.
  assert (HP' : (0 < P)%nat) by (subst P; lia).
  pose proof (Nat.div_mod_eq N P) as Hdm.
  split; [|split; [exact HN|split; [apply chunks_length|split; [|split]]]].
  - destruct (make_feature_extractor_run self k p s pk act f HP Hk Hp Hs Hs0 Hpk Hpk0 w Hact Hf)
      as (e & w' & E & L & _).
    exists e, w'. split; [exact E|]. rewrite L. unfold grouped. fold pairs P. now rewrite HN.
  - apply chunks_full. rewrite HN. lia.
  - rewrite length_drop, HN. lia.
  - pose proof (grouped_length P pairs HP') as G. unfold grouped in G.
    rewrite HN in G. exact G.
Qed.

Lemma CNN_pipeline_grouped_witness :
  plain_valid Examples.cnn 3 1 1 2 ReLU MaxPool2d
  /\ returns (CNN._make_feature_extractor Examples.cnn) Examples.w0 (fun e =>
       CNN.seq e
       = flat_map (stage_layers (VInt <$> Examples.conv_params) (Activation ReLU ∅)
                     (Pool MaxPool2d (VInt <$> Examples.pooling_params)))
           [ConvAct 3 16; ConvAct 16 32; PoolStage; ConvAct 32 64]).
Proof.
  assert (V : plain_valid Examples.cnn 3 1 1 2 ReLU MaxPool2d)
    by (split; (vm_compute; reflexivity) || lia).
  split; [exact V|].
  destruct (CNN_pipeline_grouped Examples.cnn 3 1 1 2 ReLU MaxPool2d Examples.w0 V)
    as [(e & w' & E & S) _].
  exists e, w'. split; [exact E|].
  rewrite S. vm_compute. reflexivity.
Defined.

(** The dimension rule over the modules of the pipeline is the rule over
    its stage-units: the activation of a convolution stage changes
    nothing. *)
Lemma fold_dim_after_stages (k p s pk : Z) (conv_kw act_kw pool_kw : kwargs)
    (act : act_ctor) (f : pool_ctor) (stages : list stage) (d : Z) :
  fold_left (dim_after k p s pk)
    (flat_map (stage_layers conv_kw (Activation act act_kw) (Pool f pool_kw)) stages) d
  = fold_left (stage_dim k p s pk) stages d.
Proof.
  revert d. induction stages as [|[cin cout|] stages IH]; intros d; [reflexivity| |];
    cbn [flat_map stage_layers app fold_left]; rewrite IH; reflexivity.
Qed.

Lemma Zabs_div_le (a b : Z) : b ≠ 0 -> Z.abs (a / b) <= Z.abs a.
Proof.
  intros Hb. pose proof (Z.div_mod a b Hb) as E.
  destruct (Z_lt_le_dec 0 b) as [Hp|Hn].
  - pose proof (Z.mod_pos_bound a b Hp). nia.
  - assert (Hneg : b < 0) by lia.
    pose proof (Z.mod_neg_bound a b Hneg). nia.
Qed.

(** A stage-unit changes the magnitude of a dimension by at most
    [|k| + 2 |p|]. *)
Lemma stage_dim_bound (k p s pk d : Z) (st : stage) :
  s ≠ 0 -> pk ≠ 0 ->
  Z.abs (stage_dim k p s pk d st) <= Z.abs d + (Z.abs k + 2 * Z.abs p).
Proof.
  intros Hs Hpk. unfold stage_dim. destruct st as [cin cout|]; cbn [stage_division fst snd].
  - pose proof (Zabs_div_le (d - k + 2 * p) s Hs). lia.
  - pose proof (Zabs_div_le d pk Hpk). lia.
Qed.

Lemma fold_stage_dim_bound (k p s pk : Z) (stages : list stage) (d : Z) :
  s ≠ 0 -> pk ≠ 0 ->
  Z.abs (fold_left (stage_dim k p s pk) stages d)
  <= Z.abs d + Z.of_nat (length stages) * (Z.abs k + 2 * Z.abs p).
Proof.
  intros Hs Hpk. revert d. induction stages as [|st stages IH]; intros d.
  - cbn. lia.
  - cbn [fold_left length]. pose proof (IH (stage_dim k p s pk d st)) as B.
    pose proof (stage_dim_bound k p s pk d st Hs Hpk). nia.
Qed.

(** Every division of a run over [stages] has its operands in the range
    of [float_exact] when the dimension it starts from is in range for as
    many stage-units. *)
Lemma stage_divisions_exact (k p s pk : Z) (stages : list stage) (n : nat) (d0 : Z)
    (j : nat) (st : stage) :
  s ≠ 0 -> pk ≠ 0 -> Z.abs s <= float_int_bound -> Z.abs pk <= float_int_bound ->
  (length stages ≤ 2 * n)%nat -> dim_in_range n k p d0 ->
  stages !! j = Some st ->
  let d := fold_left (stage_dim k p s pk) (take j stages) d0 in
  float_exact (stage_division k p s pk d st).1 (stage_division k p s pk d st).2.
Proof.
  intros Hs Hpk Bs Bpk Hlen Hd Hj d.
  pose proof (lookup_lt_Some _ _ _ Hj) as Hlt.
  pose proof (fold_stage_dim_bound k p s pk (take j stages) d0 Hs Hpk) as B.
  fold d in B. rewrite length_take in B.
  unfold dim_in_range in Hd. unfold float_exact.
  destruct st as [cin cout|]; cbn [stage_division fst snd]; (split; [nia|lia]).
Qed.

(** C3: while [CNN._make_feature_extractor] runs, the recorded width and
    height are updated after every convolution stage to
    floor((dim - kernel_size + 2 * padding) / stride), with no "+ 1", and
    after every pooling stage to floor(dim / pool_kernel_size): the values
    recorded for a valid configuration are the input width and height
    taken through this rule once for each stage-unit of the grouped
    pipeline of the channels, which is the pipeline that is built.  The
    magnitudes are bounded so that every division of the run has operands
    of at most 2^52, where [math.floor(a / b)] is the quotient rounded
    down. *)
Theorem CNN_recorded_dims `{Torch} (self : CNN.args) (k p s pk : Z)
    (act : act_ctor) (f : pool_ctor) (w : world) :
  plain_valid self k p s pk act f ->
  let N := length (CNN.channels self) in
  let in_w := (CNN.in_size self).2 in
  let in_h := (CNN.in_size self).1.2 in
  let stages :=
    grouped (Z.to_nat (CNN.pool_every self))
      (zip ((CNN.in_size self).1.1 :: CNN.channels self) (CNN.channels self)) in
  Z.abs s <= float_int_bound -> Z.abs pk <= float_int_bound ->
  dim_in_range N k p in_w -> dim_in_range N k p in_h ->
  returns (CNN._make_feature_extractor self) w (fun e =>
    CNN.seq e
    = flat_map (stage_layers (VInt <$> CNN.conv_params self)
                  (Activation act (CNN.activation_params self))
                  (Pool f (VInt <$> CNN.pooling_params self))) stages
    /\ CNN.conv_out_w e = PInt (fold_left (stage_dim k p s pk) stages in_w)
    /\ CNN.conv_out_h e = PInt (fold_left (stage_dim k p s pk) stages in_h))
  /\ (forall (j : nat) (st : stage) (d0 : Z),
        stages !! j = Some st -> d0 = in_w \/ d0 = in_h ->
        let d := fold_left (stage_dim k p s pk) (take j stages) d0 in
        float_exact (stage_division k p s pk d st).1 (stage_division k p s pk d st).2).
Proof.
  intros [HP Hk Hp Hs Hs0 Hpk Hpk0 Hact Hf] N in_w in_h stages Bs Bpk Bw Bh.
  split.
  - destruct (make_feature_extractor_run self k p s pk act f HP Hk Hp Hs Hs0 Hpk Hpk0 w Hact Hf)
      as (e & w' & E & S & W & Hh).
    exists e, w'. split; [exact E|]. fold stages in S.
    rewrite W, Hh, S, !fold_dim_after_stages. auto.
  - intros j st d0 Hj Hd0.
    assert (Hlen : (length stages ≤ 2 * N)%nat).
    { subst stages. rewrite grouped_length by lia. rewrite length_CNN_pairs. fold N.
      assert ((N / Z.to_nat (CNN.pool_every self) ≤ N)%nat); [|lia].
      apply Nat.Div0.div_le_upper_bound. nia. }
    apply (stage_divisions_exact k p s pk stages N d0 j st Hs0 Hpk0 Bs Bpk Hlen);
      [destruct Hd0 as [->| ->]; assumption|exact Hj].
Qed.

(** On the example the recorded dimensions are 14: 32, 31, 30 after the
    two convolutions, 15 after the pooling, 14 after the last convolution. *)
Lemma CNN_recorded_dims_example :
  match fst (CNN._make_feature_extractor Examples.cnn Examples.w0) with
  | Ok e => CNN.conv_out_w e = PInt 14 /\ CNN.conv_out_h e = PInt 14
  | Raise _ => False
  end.
Proof. vm_compute. split; reflexivity. Qed.

Lemma CNN_recorded_dims_witness :
  plain_valid Examples.cnn 3 1 1 2 ReLU MaxPool2d
  /\ dim_in_range 3 3 1 32
  /\ returns (CNN._make_feature_extractor Examples.cnn) Examples.w0 (fun e =>
       CNN.conv_out_w e
       = PInt (fold_left (stage_dim 3 1 1 2)
                 [ConvAct 3 16; ConvAct 16 32; PoolStage; ConvAct 32 64] 32)
       /\ CNN.conv_out_w e = PInt 14 /\ CNN.conv_out_h e = PInt 14).
Proof.
  assert (V : plain_valid Examples.cnn 3 1 1 2 ReLU MaxPool2d)
    by (split; (vm_compute; reflexivity) || lia).
  assert (B : dim_in_range 3 3 1 32) by (vm_compute; discriminate).
  split; [exact V|]. split; [exact B|].
  destruct (CNN_recorded_dims Examples.cnn 3 1 1 2 ReLU MaxPool2d Examples.w0 V)
    as [(e & w' & E & _ & Hw & Hh) _];
    [vm_compute; discriminate|vm_compute; discriminate|exact B|exact B|].
  exists e, w'. split; [exact E|]. rewrite Hw, Hh. repeat split.
Defined.

(** ** Residual blocks *)

Lemma py_getitem_lookup {A} (l : list A) (i : nat) (a : A) :
  l !! i = Some a -> py_getitem l (Z.of_nat i) = Ok a.
Proof.
  intros E. pose proof (lookup_lt_Some _ _ _ E) as Hlt.
  unfold py_getitem. destruct (Z.ltb_spec (Z.of_nat i) 0); [lia|].
  destruct (Z.ltb_spec (Z.of_nat i) 0); [lia|].
  destruct (Z.leb_spec (Z.of_nat (length l)) (Z.of_nat i)); [lia|].
  cbn. now rewrite Nat2Z.id, E.
Qed.

Lemma py_getitem_last {A} (l : list A) (d : A) :
  l ≠ [] -> py_getitem l (-1) = Ok (List.last l d).
Proof.
  intros Hne. destruct (exists_last Hne) as (l' & a & ->).
  rewrite last_last. unfold py_getitem. rewrite length_app. cbn [length].
  change (-1 <? 0) with true. cbv iota.
  destruct (Z.ltb_spec (-1 + Z.of_nat (length l' + 1)) 0); [lia|].
  destruct (Z.leb_spec (Z.of_nat (length l' + 1)) (-1 + Z.of_nat (length l' + 1))); [lia|].
  cbn. replace (Z.to_nat (-1 + Z.of_nat (length l' + 1))) with (length l' + 0)%nat by lia.
  now rewrite lookup_app_r, Nat.add_comm, Nat.add_sub by lia.
Qed.

Section BlockInit.
Context `{Torch}.
Variables (kw : ResidualBlock.opts) (act : act_ctor).

Let phi : layer := Activation act (ResidualBlock.activation_params kw).

Lemma shortcut_conv_check (cin cout : Z) :
  ctor_check (Conv2d cin cout ResidualBlock.shortcut_conv_kw) = Ok tt.
Proof. reflexivity. Qed.

Lemma main_conv_check (cin cout k : Z) :
  ctor_check (Conv2d cin cout (ResidualBlock.main_conv_kw k)) = Ok tt.
Proof. reflexivity. Qed.

(** The modules after a convolution that is not the last. *)
Lemma after_conv_run (main_layers : list layer) (all_channels : list Z) (i : nat)
    (cout : Z) (w : world) :
  all_channels !! S i = Some cout ->
  exists w',
    (main_layers ←
       (if Qpositive (ResidualBlock.dropout kw)
        then d ← new_module (Dropout2d (ResidualBlock.dropout kw));
             mret (main_layers ++ [d])
        else mret main_layers);
     main_layers ←
       (if ResidualBlock.batchnorm kw
        then c ← lift (py_getitem all_channels (Z.of_nat i + 1));
             b ← new_module (BatchNorm2d c);
             mret (main_layers ++ [b])
        else mret main_layers);
     mret (Continue (main_layers ++ [phi]))) w
    = (Ok (Continue (main_layers ++ after_conv kw phi cout)), w').
Proof.
  intros Hc. unfold after_conv.
  replace (Z.of_nat i + 1) with (Z.of_nat (S i)) by lia.
  rewrite (py_getitem_lookup _ _ _ Hc).
  destruct (Qpositive (ResidualBlock.dropout kw)), (ResidualBlock.batchnorm kw);
    cbv [mbind M_bind mret M_ret lift new_module ctor_check];
    rewrite <- ?app_assoc; eexists; reflexivity.
Qed.

(** One iteration of the loop of [ResidualBlock.__init__]. *)
Lemma block_body_run (all_channels kernel_sizes : list Z) (main_layers : list layer)
    (i : nat) (cin cout k : Z) (w : world) :
  all_channels !! i = Some cin -> all_channels !! S i = Some cout ->
  kernel_sizes !! i = Some k ->
  exists w',
    ResidualBlock.loop_body all_channels kernel_sizes kw phi main_layers (Z.of_nat i) w
    = (Ok (if Z.of_nat i =? len kernel_sizes - 1
           then Break (main_layers ++ [Conv2d cin cout (ResidualBlock.main_conv_kw k)])
           else Continue ((main_layers ++ [Conv2d cin cout (ResidualBlock.main_conv_kw k)])
                          ++ after_conv kw phi cout)), w').
Proof.
  intros Hcin Hcout Hk. unfold ResidualBlock.loop_body.
  assert (Ec : py_getitem all_channels (Z.of_nat i + 1) = Ok cout).
  { replace (Z.of_nat i + 1) with (Z.of_nat (S i)) by lia.
    now apply py_getitem_lookup. }
  rewrite (bind_lift _ _ _ _ (py_getitem_lookup _ _ _ Hcin)).
  rewrite (bind_lift _ _ _ _ Ec).
  rewrite (bind_lift _ _ _ _ (py_getitem_lookup _ _ _ Hk)).
  erewrite bind_Ok by (apply new_module_Ok, main_conv_check).
  destruct (Z.of_nat i =? len kernel_sizes - 1).
  - eexists. reflexivity.
  - apply after_conv_run. exact Hcout.
Qed.

(** The loop of [ResidualBlock.__init__], from the convolution [i] on. *)
Lemma block_loop_run (all_channels kernel_sizes : list Z) (m : nat) :
  forall (i : nat) (main_layers : list layer) (cin : Z) (w : world),
    (i + m)%nat = length kernel_sizes ->
    length all_channels = S (length kernel_sizes) ->
    all_channels !! i = Some cin ->
    exists w',
      py_for (ResidualBlock.loop_body all_channels kernel_sizes kw phi)
        (seqZ (Z.of_nat i) (Z.of_nat m)) main_layers w
      = (Ok (main_layers
             ++ main_path_spec kw phi cin (drop (S i) all_channels) (drop i kernel_sizes)),
         w').
Proof.
  induction m as [|m IH]; intros i main_layers cin w Hi Hlen Hcin.
  - exists w. rewrite (drop_ge kernel_sizes) by lia.
    rewrite drop_ge by lia. cbn [Z.of_nat seqZ]. cbn. now rewrite app_nil_r.
  - rewrite seqZ_cons by lia. cbn [py_for].
    destruct (lookup_lt_is_Some_2 all_channels (S i) ltac:(lia)) as [cout Hcout].
    destruct (lookup_lt_is_Some_2 kernel_sizes i ltac:(lia)) as [k Hk].
    rewrite (drop_S _ _ _ Hcout), (drop_S _ _ _ Hk). cbn [main_path_spec].
    destruct (block_body_run all_channels kernel_sizes main_layers i cin cout k w
                Hcin Hcout Hk) as (w1 & E1).
    rewrite (bind_Ok _ _ _ _ _ E1). unfold len.
    destruct (Z.eqb_spec (Z.of_nat i) (Z.of_nat (length kernel_sizes) - 1)) as [E|E].
    + assert (m = 0)%nat as -> by lia.
      rewrite (drop_ge all_channels) by lia. exists w1. reflexivity.
    + destruct m as [|m]; [lia|].
      destruct (lookup_lt_is_Some_2 all_channels (S (S i)) ltac:(lia)) as [c2 Hc2].
      rewrite (drop_S _ _ _ Hc2).
      replace (Z.succ (Z.of_nat i)) with (Z.of_nat (S i)) by lia.
      replace (Z.pred (Z.of_nat (S (S m)))) with (Z.of_nat (S m)) by lia.
      destruct (IH (S i) ((main_layers ++ [Conv2d cin cout (ResidualBlock.main_conv_kw k)])
                          ++ after_conv kw phi cout) cout w1 ltac:(lia) Hlen Hcout)
        as (w2 & E2).
      exists w2. rewrite E2. rewrite (drop_S _ _ _ Hc2).
      f_equal. f_equal. rewrite <- !app_assoc. reflexivity.
Qed.

End BlockInit.

Section BlockInitRun.
Context `{Torch}.
Variables (kw : ResidualBlock.opts) (act : act_ctor).

Lemma py_in_Some {V} (d : gmap string V) (key : string) (v : V) :
  d !! key = Some v -> py_in key d = true.
Proof. intros E. unfold py_in. rewrite E. apply bool_decide_eq_true_2. now eexists. Qed.

Lemma py_in_None {V} (d : gmap string V) (key : string) :
  d !! key = None -> py_in key d = false.
Proof.
  intros E. unfold py_in. rewrite E. apply bool_decide_eq_false_2.
  intros [v Hv]. discriminate.
Qed.

Lemma forallb_odd (kernel_sizes : list Z) :
  Forall (fun k => k mod 2 = 1) kernel_sizes ->
  forallb (fun x => x mod 2 =? 1) kernel_sizes = true.
Proof.
  induction 1 as [|k ks Hk _ IH]; [reflexivity|].
  cbn. rewrite IH, andb_true_r. now apply Z.eqb_eq.
Qed.

(** [ResidualBlock.__init__] on a valid specification. *)
Lemma block_init_run (cin : Z) (channels kernel_sizes : list Z) (w : world) :
  block_valid channels kernel_sizes kw act ->
  exists w',
    ResidualBlock.__init__ cin channels kernel_sizes kw w
    = (Ok (residual_block_spec kw act cin channels kernel_sizes), w').
Proof.
  intros [Hne Hlen Hodd Hact]. unfold ResidualBlock.__init__.
  assert (Hne' : kernel_sizes ≠ [])
    by (intros ->; destruct channels; [congruence|discriminate]).
  rewrite !bool_decide_eq_true_2 by assumption. cbn [andb py_assert].
  rewrite bind_lift_Ok. unfold len. rewrite Hlen, Z.eqb_refl. cbn [py_assert].
  rewrite bind_lift_Ok, (forallb_odd _ Hodd). cbn [py_assert].
  rewrite bind_lift_Ok, (py_in_Some _ _ _ Hact). cbn [negb].
  rewrite py_slice_all. unfold py_lookup. rewrite Hact, bind_lift_Ok.
  erewrite bind_Ok by (apply new_module_Ok; reflexivity).
  match goal with |- context [World ?g ?b] => set (w1 := World g b) end.
  destruct (block_loop_run kw act ([cin] ++ channels) kernel_sizes (length kernel_sizes)
              0 [] cin w1 eq_refl ltac:(cbn; lia) eq_refl) as (w2 & E2).
  cbn [Z.of_nat] in E2. rewrite (bind_Ok _ _ _ _ _ E2).
  rewrite (py_getitem_last channels cin Hne), bind_lift_Ok.
  unfold residual_block_spec, shortcut_path_spec.
  cbn [app drop].
  destruct (cin =? List.last channels cin).
  - erewrite bind_Ok.
    2:{ erewrite bind_Ok by (apply new_module_Ok; reflexivity). reflexivity. }
    eexists. reflexivity.
  - erewrite bind_Ok.
    2:{ rewrite bind_lift_Ok.
        erewrite bind_Ok by (apply new_module_Ok, shortcut_conv_check). reflexivity. }
    eexists. reflexivity.
Qed.

(** An unsupported activation kind is refused before any module is
    instantiated. *)
Lemma block_init_unsupported (cin : Z) (channels kernel_sizes : list Z) (w : world) :
  channels ≠ [] -> length channels = length kernel_sizes ->
  Forall (fun k => k mod 2 = 1) kernel_sizes ->
  ACTIVATIONS !! ResidualBlock.activation_type kw = None ->
  ResidualBlock.__init__ cin channels kernel_sizes kw w
  = (Raise (ValueError "Unsupported activation type"), w).
Proof.
  intros Hne Hlen Hodd Hact. unfold ResidualBlock.__init__.
  assert (Hne' : kernel_sizes ≠ [])
    by (intros ->; destruct channels; [congruence|discriminate]).
  rewrite !bool_decide_eq_true_2 by assumption. cbn [andb py_assert].
  rewrite bind_lift_Ok. unfold len. rewrite Hlen, Z.eqb_refl. cbn [py_assert].
  rewrite bind_lift_Ok, (forallb_odd _ Hodd). cbn [py_assert].
  rewrite bind_lift_Ok, (py_in_None _ _ Hact). reflexivity.
Qed.

(** The bottleneck block is the residual block of the derived channel and
    kernel-size sequences. *)
Lemma bottleneck_init_eq (C c1 : Z) (cs kernel_sizes : list Z) (w : world) :
  length (c1 :: cs) = length kernel_sizes ->
  ResidualBottleneckBlock.__init__ C (c1 :: cs) kernel_sizes kw w
  = ResidualBlock.__init__ C (c1 :: c1 :: cs ++ [C]) (1 :: kernel_sizes ++ [1]) kw w.
Proof.
  intros Hlen. unfold ResidualBottleneckBlock.__init__.
  unfold len. rewrite Hlen.
  destruct (Z.ltb_spec 0 (Z.of_nat (length kernel_sizes))) as [_|Hc];
    [|rewrite <- Hlen in Hc; cbn [length] in Hc; lia].
  rewrite Z.eqb_refl. reflexivity.
Qed.

(** Without inner channels the bottleneck block is refused. *)
Lemma bottleneck_init_empty (C : Z) (kernel_sizes : list Z) (w : world) :
  ResidualBottleneckBlock.__init__ C [] kernel_sizes kw w = (Raise AssertionError, w).
Proof. reflexivity. Qed.

End BlockInitRun.

(** C4: for an in/out channel count C, inner channels [c1; ...; ck] and as
    many inner kernel sizes [k1; ...; kk], constructing a bottleneck block
    is constructing a residual block with input channels C, channels
    [c1; c1; ...; ck; C] and kernel sizes [1; k1; ...; kk; 1]; in particular
    for two inner channels. *)
Theorem bottleneck_block_is_residual_block `{Torch} (C c1 : Z) (cs kernel_sizes : list Z)
    (kw : ResidualBlock.opts) (w : world) :
  length (c1 :: cs) = length kernel_sizes ->
  ResidualBottleneckBlock.__init__ C (c1 :: cs) kernel_sizes kw w
  = ResidualBlock.__init__ C ([c1; c1] ++ cs ++ [C]) ([1] ++ kernel_sizes ++ [1]) kw w
  /\ (forall c2 k1 k2,
        ResidualBottleneckBlock.__init__ C [c1; c2] [k1; k2] kw w
        = ResidualBlock.__init__ C [c1; c1; c2; C] [1; k1; k2; 1] kw w).
Proof.
  intros Hlen. split.
  - now apply bottleneck_init_eq.
  - intros c2 k1 k2. now apply bottleneck_init_eq.
Qed.

Lemma bottleneck_block_is_residual_block_witness :
  length [5; 7] = length [3; 5]
  /\ @ResidualBottleneckBlock.__init__ ShapeTorch 10 [5; 7] [3; 5]
       Examples.block_opts Examples.w0
     = @ResidualBlock.__init__ ShapeTorch 10 [5; 5; 7; 10] [1; 3; 5; 1]
         Examples.block_opts Examples.w0.
Proof.
  split; [reflexivity|].
  exact (proj1 (bottleneck_block_is_residual_block 10 5 [7] [3; 5]
                  Examples.block_opts Examples.w0 eq_refl)).
Defined.

(** C5: for a valid ResidualBlockSpec the main path is made of the
    convolutions channels[i-1] -> channels[i] (from the input channels for
    the first) with kernel_sizes[i], same-size padding and a bias; each
    convolution but the last is followed by dropout (if its probability is
    positive), batch normalization (if enabled) and the activation, in this
    order, and the last convolution by nothing. *)
Theorem ResidualBlock_main_path `{Torch} (cin : Z) (channels kernel_sizes : list Z)
    (kw : ResidualBlock.opts) (act : act_ctor) (w : world) :
  block_valid channels kernel_sizes kw act ->
  let phi := Activation act (ResidualBlock.activation_params kw) in
  returns (ResidualBlock.__init__ cin channels kernel_sizes kw) w (fun block =>
    exists shortcut_path,
      block = ResidualBlock (main_path_spec kw phi cin channels kernel_sizes) shortcut_path)
  /\ (forall c k, main_path_spec kw phi cin [c] [k]
        = [Conv2d cin c {[ "kernel_size" := VInt k; "bias" := VBool true;
                           "padding" := VStr "same" ]}])
  /\ (forall c c' cs k ks, main_path_spec kw phi cin (c :: c' :: cs) (k :: ks)
        = [Conv2d cin c {[ "kernel_size" := VInt k; "bias" := VBool true;
                           "padding" := VStr "same" ]}]
          ++ (if Qpositive (ResidualBlock.dropout kw)
              then [Dropout2d (ResidualBlock.dropout kw)] else [])
          ++ (if ResidualBlock.batchnorm kw then [BatchNorm2d c] else [])
          ++ [phi]
          ++ main_path_spec kw phi c (c' :: cs) ks).
Proof.
  intros V phi. split; [|split].
  - destruct (block_init_run kw act cin channels kernel_sizes w V) as (w' & E).
    eexists _, w'. split; [exact E|]. eexists. reflexivity.
  - reflexivity.
  - intros. cbn [main_path_spec]. unfold after_conv. now rewrite <- !app_assoc.
Qed.

Lemma ResidualBlock_main_path_witness :
  block_valid [4; 5] [3; 5] Examples.block_opts LeakyReLU
  /\ returns (ResidualBlock.__init__ 3 [4; 5] [3; 5] Examples.block_opts) Examples.w0
       (fun block => exists shortcut_path,
          block = ResidualBlock
            [Conv2d 3 4 (ResidualBlock.main_conv_kw 3);
             Dropout2d (QArith_base.Qmake 1 2);
             BatchNorm2d 4;
             Activation LeakyReLU (ResidualBlock.activation_params Examples.block_opts);
             Conv2d 4 5 (ResidualBlock.main_conv_kw 5)]
            shortcut_path).
Proof.
  assert (V : block_valid [4; 5] [3; 5] Examples.block_opts LeakyReLU).
  { split; [discriminate|reflexivity| |reflexivity]. repeat constructor. }
  split; [exact V|].
  exact (proj1 (ResidualBlock_main_path 3 [4; 5] [3; 5] Examples.block_opts LeakyReLU
                  Examples.w0 V)).
Defined.

(** C6: for a valid ResidualBlockSpec the shortcut path is the identity,
    which has no learned parameters, if and only if the input channel count
    is the last channel entry; otherwise it is exactly one 1x1 convolution
    without bias, with same-size padding, from the input channel count to
    the last channel entry. *)
Theorem ResidualBlock_shortcut_path `{Torch} (cin : Z) (channels kernel_sizes : list Z)
    (kw : ResidualBlock.opts) (act : act_ctor) (w : world) :
  block_valid channels kernel_sizes kw act ->
  returns (ResidualBlock.__init__ cin channels kernel_sizes kw) w (fun block =>
    exists main_path shortcut_path,
      block = ResidualBlock main_path shortcut_path
      /\ (cin = List.last channels cin <-> shortcut_path = [Identity])
      /\ (cin = List.last channels cin -> existsb has_parameters shortcut_path = false)
      /\ (cin ≠ List.last channels cin ->
          shortcut_path
          = [Conv2d cin (List.last channels cin)
               {[ "kernel_size" := VInt 1; "bias" := VBool false;
                  "padding" := VStr "same" ]}])).
Proof.
  intros V.
  destruct (block_init_run kw act cin channels kernel_sizes w V) as (w' & E).
  eexists _, w'. split; [exact E|].
  eexists _, _. split; [reflexivity|].
  unfold shortcut_path_spec.
  destruct (Z.eqb_spec cin (List.last channels cin)) as [Heq|Hne].
  - split; [tauto|]. split; [reflexivity|]. intros Hc. contradiction.
  - split; [|split].
    + split; [contradiction|discriminate].
    + contradiction.
    + reflexivity.
Qed.

Lemma ResidualBlock_shortcut_path_witness :
  block_valid [4; 5] [3; 5] Examples.block_opts LeakyReLU
  /\ returns (ResidualBlock.__init__ 3 [4; 5] [3; 5] Examples.block_opts) Examples.w0
       (fun block => exists main_path,
          block = ResidualBlock main_path [Conv2d 3 5 ResidualBlock.shortcut_conv_kw])
  /\ returns (ResidualBlock.__init__ 5 [4; 5] [3; 5] Examples.block_opts) Examples.w0
       (fun block => exists main_path, block = ResidualBlock main_path [Identity]).
Proof.
  assert (V : block_valid [4; 5] [3; 5] Examples.block_opts LeakyReLU).
  { split; [discriminate|reflexivity| |reflexivity]. repeat constructor. }
  split; [exact V|]. split.
  - destruct (ResidualBlock_shortcut_path 3 [4; 5] [3; 5] Examples.block_opts LeakyReLU
                Examples.w0 V) as (b & w' & E & m & s & -> & _ & _ & Hs).
    exists (ResidualBlock m s), w'. split; [exact E|]. exists m.
    rewrite (Hs ltac:(discriminate)). reflexivity.
  - destruct (ResidualBlock_shortcut_path 5 [4; 5] [3; 5] Examples.block_opts LeakyReLU
                Examples.w0 V) as (b & w' & E & m & s & -> & Hi & _).
    exists (ResidualBlock m s), w'. split; [exact E|]. exists m.
    rewrite (proj1 Hi eq_refl). reflexivity.
Defined.

(** ** Forward passes *)

Section ForwardFacts.
Context `{Torch}.

Lemma bind_ext {A B} (m : M A) (f g : A -> M B) (w : world) :
  (forall a w', f a w' = g a w') -> (m ≫= f) w = (m ≫= g) w.
Proof.
  intros E. unfold mbind, M_bind. destruct (m w) as [[a|e] w1]; [apply E|reflexivity].
Qed.

Lemma bind_cong {A B} (m m' : M A) (f g : A -> M B) (w : world) :
  m w = m' w -> (forall a w', f a w' = g a w') -> (m ≫= f) w = (m' ≫= g) w.
Proof.
  intros Em E. unfold mbind, M_bind. rewrite Em.
  destruct (m' w) as [[a|e] w1]; [apply E|reflexivity].
Qed.

(** The forward of a residual block runs its two paths as [nn.Sequential]s. *)
Lemma call_ResidualBlock (training : bool) (main_path shortcut_path : list layer)
    (x : tensor) (w : world) :
  call training (ResidualBlock main_path shortcut_path) x w
  = (a ← Sequential training main_path x;
     b ← Sequential training shortcut_path x;
     out ← lift (torch_add a b);
     mret (torch_relu out)) w.
Proof.
  cbn [call].
  match goal with |- ((?F main_path x) ≫= _) w = _ =>
    assert (HF : forall ls y w', F ls y w' = Sequential training ls y w') end.
  { induction ls as [|l ls IH]; intros y w'; [reflexivity|].
    cbn [Sequential]. apply bind_ext. exact IH. }
  apply bind_cong; [apply HF|]. intros a w'.
  apply bind_cong; [apply HF|]. reflexivity.
Qed.

Lemma Sequential_app (training : bool) (l1 l2 : list layer) (x : tensor) (w : world) :
  Sequential training (l1 ++ l2) x w
  = (y ← Sequential training l1 x; Sequential training l2 y) w.
Proof.
  revert x w. induction l1 as [|l l1 IH]; intros x w.
  - reflexivity.
  - cbn [app Sequential]. unfold mbind, M_bind.
    destruct (call training l x w) as [[y|e] w1]; [apply IH|reflexivity].
Qed.

End ForwardFacts.

(** C7: the forward of a residual block returns the rectified-linear
    activation of the sum of what its main path and its shortcut path
    return on the input; this last activation is [torch.relu] whatever
    activation the block was configured with. *)
Theorem ResidualBlock_forward_relu_of_sum `{Torch} (training : bool)
    (main_path shortcut_path : list layer) (x a b out : tensor) (w w1 w2 : world) :
  Sequential training main_path x w = (Ok a, w1) ->
  Sequential training shortcut_path x w1 = (Ok b, w2) ->
  torch_add a b = Ok out ->
  ResidualBlock.forward training (ResidualBlock main_path shortcut_path) x w
  = (Ok (torch_relu out), w2).
Proof.
  intros Ea Eb Eo. unfold ResidualBlock.forward.
  rewrite call_ResidualBlock.
  rewrite (bind_Ok _ _ _ _ _ Ea), (bind_Ok _ _ _ _ _ Eb), Eo. reflexivity.
Qed.

Lemma ResidualBlock_forward_relu_of_sum_witness :
  let block_main :=
    [Conv2d 3 4 (ResidualBlock.main_conv_kw 3);
     Activation LeakyReLU (ResidualBlock.activation_params Examples.block_opts);
     Conv2d 4 5 (ResidualBlock.main_conv_kw 5)] in
  let block_shortcut := [Conv2d 3 5 ResidualBlock.shortcut_conv_kw] in
  @Sequential ShapeTorch true block_main [2; 3; 8; 8] Examples.w0 = (Ok [2; 5; 8; 8], Examples.w0)
  /\ @Sequential ShapeTorch true block_shortcut [2; 3; 8; 8] Examples.w0
     = (Ok [2; 5; 8; 8], Examples.w0)
  /\ @torch_add ShapeTorch [2; 5; 8; 8] [2; 5; 8; 8] = Ok [2; 5; 8; 8]
  /\ @ResidualBlock.forward ShapeTorch true (ResidualBlock block_main block_shortcut)
       [2; 3; 8; 8] Examples.w0
     = (Ok (@torch_relu ShapeTorch [2; 5; 8; 8]), Examples.w0).
Proof.
  intros block_main block_shortcut.
  assert (Ea : @Sequential ShapeTorch true block_main [2; 3; 8; 8] Examples.w0
               = (Ok [2; 5; 8; 8], Examples.w0)) by (vm_compute; reflexivity).
  assert (Eb : @Sequential ShapeTorch true block_shortcut [2; 3; 8; 8] Examples.w0
               = (Ok [2; 5; 8; 8], Examples.w0)) by (vm_compute; reflexivity).
  assert (Eo : @torch_add ShapeTorch [2; 5; 8; 8] [2; 5; 8; 8] = Ok [2; 5; 8; 8])
    by reflexivity.
  split; [exact Ea|]. split; [exact Eb|]. split; [exact Eo|].
  exact (@ResidualBlock_forward_relu_of_sum ShapeTorch true block_main block_shortcut
           [2; 3; 8; 8] [2; 5; 8; 8] [2; 5; 8; 8] [2; 5; 8; 8]
           Examples.w0 Examples.w0 Examples.w0 Ea Eb Eo).
Defined.

(** ** The feature-count probe *)

Section Probe.
Context `{Torch}.

(** What [_n_features] returns and the state it leaves, from the run of the
    extractor on the zero input. *)
Lemma n_features_run (training : bool) (self : CNN.args) (fe : list layer) (w : world) :
  CNN._n_features training self fe w
  = let '(c, h, w_) := CNN.in_size self in
    let '(r, w1) := Sequential training fe (torch_unsqueeze0 (torch_zeros [c; h; w_])) w in
    (match r with Ok ext => Ok (torch_numel ext) | Raise e => Raise e end,
     {| rng := rng w; built := built w1 |}).
Proof.
  unfold CNN._n_features, get_rng_state, try_finally, set_rng_state.
  destruct (CNN.in_size self) as [[c h] w_].
  unfold mbind at 1, M_bind at 1. unfold mbind, M_bind.
  destruct (Sequential training fe (torch_unsqueeze0 (torch_zeros [c; h; w_])) w)
    as [[ext|e] w1]; reflexivity.
Qed.

End Probe.

(** C8, as the code has it: the probe runs the extractor on the zero input
    in the mode the modules are in, and counts the elements of what it
    returns; the state of the global generator after the probe is the state
    before it, whether the probe returns or raises. *)
Theorem n_features_restores_rng_state `{Torch} (training : bool) (self : CNN.args)
    (fe : list layer) (w : world) :
  rng (snd (CNN._n_features training self fe w)) = rng w
  /\ fst (CNN._n_features training self fe w)
     = match fst (Sequential training fe
                    (torch_unsqueeze0
                       (torch_zeros [(CNN.in_size self).1.1; (CNN.in_size self).1.2;
                                     (CNN.in_size self).2])) w) with
       | Ok ext => Ok (torch_numel ext)
       | Raise e => Raise e
       end.
Proof.
  rewrite n_features_run. destruct (CNN.in_size self) as [[c h] w_]. cbn [fst snd].
  destruct (Sequential training fe (torch_unsqueeze0 (torch_zeros [c; h; w_])) w)
    as [[ext|e] w1]; split; reflexivity.
Qed.

(** The probe of a residual network with dropout, computed. *)
Lemma probe_of_resnet_dropout :
  match fst (@ResNet.__init__ ShapeTorch Examples.resnet_dropout Examples.w0) with
  | Ok m =>
      (exists main_path shortcut_path pool,
         CNN.feature_extractor m = [ResidualBlock main_path shortcut_path; pool]
         /\ In (Dropout2d (QArith_base.Qmake 1 2)) main_path)
      /\ rng (snd (@Sequential ShapeTorch true (CNN.feature_extractor m)
                     (@torch_unsqueeze0 ShapeTorch (@torch_zeros ShapeTorch [3; 8; 8]))
                     Examples.w0)) = 4
      /\ rng (snd (@Sequential ShapeTorch false (CNN.feature_extractor m)
                     (@torch_unsqueeze0 ShapeTorch (@torch_zeros ShapeTorch [3; 8; 8]))
                     Examples.w0)) = 0
  | Raise _ => False
  end.
Proof.
  vm_compute. split; [|split; reflexivity].
  eexists _, _, _. split; [reflexivity|]. right. left. reflexivity.
Qed.

(** C8, as the spec has it, fails: [__init__] probes the extractor in
    training mode, in which the dropout of a residual block draws from the
    global generator (here 4 values, one per sample and channel); in
    evaluation mode it would draw nothing. *)
Lemma probe_draws_from_generator :
  exists m w1,
    @ResNet.__init__ ShapeTorch Examples.resnet_dropout Examples.w0 = (Ok m, w1)
    /\ (exists main_path shortcut_path pool,
          CNN.feature_extractor m = [ResidualBlock main_path shortcut_path; pool]
          /\ In (Dropout2d (QArith_base.Qmake 1 2)) main_path)
    /\ rng (snd (@Sequential ShapeTorch true (CNN.feature_extractor m)
                   (@torch_unsqueeze0 ShapeTorch (@torch_zeros ShapeTorch [3; 8; 8]))
                   Examples.w0)) = 4
    /\ rng Examples.w0 = 0
    /\ rng (snd (@Sequential ShapeTorch false (CNN.feature_extractor m)
                   (@torch_unsqueeze0 ShapeTorch (@torch_zeros ShapeTorch [3; 8; 8]))
                   Examples.w0)) = 0.
Proof.
  pose proof probe_of_resnet_dropout as P.
  destruct (@ResNet.__init__ ShapeTorch Examples.resnet_dropout Examples.w0)
    as [[m|e] w1]; cbn [fst] in P; [|contradiction].
  destruct P as (D & T & F).
  exists m, w1. split; [reflexivity|]. split; [exact D|]. split; [exact T|].
  split; [reflexivity|exact F].
Qed.

(** ** Unsupported kinds *)

Lemma ACTIVATIONS_keys (kind : string) :
  is_Some (ACTIVATIONS !! kind) <-> kind = "relu" \/ kind = "lrelu".
Proof.
  unfold ACTIVATIONS. split.
  - intros [v Hv].
    destruct (decide (kind = "relu")) as [->|H1]; [now left|].
    destruct (decide (kind = "lrelu")) as [->|H2]; [now right|].
    rewrite lookup_insert_ne, lookup_singleton_ne in Hv by congruence.
    discriminate.
  - intros [->| ->]; eexists; reflexivity.
Qed.

Lemma POOLINGS_keys (kind : string) :
  is_Some (POOLINGS !! kind) <-> kind = "avg" \/ kind = "max".
Proof.
  unfold POOLINGS. split.
  - intros [v Hv].
    destruct (decide (kind = "avg")) as [->|H1]; [now left|].
    destruct (decide (kind = "max")) as [->|H2]; [now right|].
    rewrite lookup_insert_ne, lookup_singleton_ne in Hv by congruence.
    discriminate.
  - intros [->| ->]; eexists; reflexivity.
Qed.

Lemma py_in_is_Some {V} (d : gmap string V) (key : string) :
  py_in key d = true <-> is_Some (d !! key).
Proof. unfold py_in. apply bool_decide_eq_true. Qed.

Section Refused.
Context `{Torch}.

(** The check of lines 65-66 fails: nothing has been instantiated. *)
Lemma CNN_init_unsupported (mfe : CNN.args -> M CNN.extractor) (self : CNN.args)
    (w : world) :
  ~ (is_Some (ACTIVATIONS !! CNN.activation_type self)
     /\ is_Some (POOLINGS !! CNN.pooling_type self)) ->
  CNN.__init__ mfe self w
  = (Raise (if bool_decide (CNN.channels self ≠ []) && bool_decide (CNN.hidden_dims self ≠ [])
            then ValueError "Unsupported activation or pooling type"
            else AssertionError), w).
Proof.
  intros Hno. unfold CNN.__init__.
  destruct (bool_decide (CNN.channels self ≠ []) && bool_decide (CNN.hidden_dims self ≠ []));
    [|reflexivity].
  cbn [py_assert]. rewrite bind_lift_Ok.
  destruct (py_in (CNN.activation_type self) ACTIVATIONS) eqn:Ea;
    destruct (py_in (CNN.pooling_type self) POOLINGS) eqn:Ep; try reflexivity.
  exfalso. apply Hno. split; now apply py_in_is_Some.
Qed.

(** The check of lines 65-66 passes: construction goes on. *)
Lemma CNN_init_supported (mfe : CNN.args -> M CNN.extractor) (self : CNN.args)
    (w : world) :
  CNN.channels self ≠ [] -> CNN.hidden_dims self ≠ [] ->
  is_Some (ACTIVATIONS !! CNN.activation_type self) ->
  is_Some (POOLINGS !! CNN.pooling_type self) ->
  CNN.__init__ mfe self w
  = (fe ← mfe self;
     mlp ← CNN._make_mlp true self (CNN.seq fe);
     mret (CNN.Model self (CNN.seq fe) (CNN.conv_out_w fe) (CNN.conv_out_h fe) mlp)) w.
Proof.
  intros Hc Hh Ha Hp. unfold CNN.__init__.
  rewrite !bool_decide_eq_true_2 by assumption. cbn [andb py_assert].
  rewrite bind_lift_Ok.
  apply py_in_is_Some in Ha, Hp. rewrite Ha, Hp. reflexivity.
Qed.

End Refused.

(** C9: a configuration whose activation kind is not 'relu' or 'lrelu', or
    whose pooling kind is not 'max' or 'avg', is refused by [CNN.__init__]
    (whatever the class of the model) with the ValueError of line 66, or
    with the AssertionError of line 52 when it has no channels or no hidden
    dimensions; no module has been instantiated then and no model is
    returned.  With supported kinds the error of line 66 is not raised:
    construction goes on with the feature extractor.  [ResidualBlock.__init__]
    does the same with the activation kind. *)
Theorem unsupported_kind_refused_first `{Torch} (mfe : CNN.args -> M CNN.extractor)
    (self : CNN.args) (w : world) :
  (forall kind, is_Some (ACTIVATIONS !! kind) <-> kind = "relu" \/ kind = "lrelu")
  /\ (forall kind, is_Some (POOLINGS !! kind) <-> kind = "avg" \/ kind = "max")
  /\ (~ (is_Some (ACTIVATIONS !! CNN.activation_type self)
         /\ is_Some (POOLINGS !! CNN.pooling_type self)) ->
      exists e,
        CNN.__init__ mfe self w = (Raise e, w)
        /\ (CNN.channels self ≠ [] -> CNN.hidden_dims self ≠ [] ->
            e = ValueError "Unsupported activation or pooling type")
        /\ (e = ValueError "Unsupported activation or pooling type" \/ e = AssertionError))
  /\ (is_Some (ACTIVATIONS !! CNN.activation_type self) ->
      is_Some (POOLINGS !! CNN.pooling_type self) ->
      CNN.channels self ≠ [] -> CNN.hidden_dims self ≠ [] ->
      CNN.__init__ mfe self w
      = (fe ← mfe self;
         mlp ← CNN._make_mlp true self (CNN.seq fe);
         mret (CNN.Model self (CNN.seq fe) (CNN.conv_out_w fe) (CNN.conv_out_h fe) mlp)) w)
  /\ (forall cin channels kernel_sizes kw,
        channels ≠ [] -> length channels = length kernel_sizes ->
        Forall (fun k => k mod 2 = 1) kernel_sizes ->
        (~ is_Some (ACTIVATIONS !! ResidualBlock.activation_type kw) ->
         ResidualBlock.__init__ cin channels kernel_sizes kw w
         = (Raise (ValueError "Unsupported activation type"), w))
        /\ (is_Some (ACTIVATIONS !! ResidualBlock.activation_type kw) ->
            returns (ResidualBlock.__init__ cin channels kernel_sizes kw) w (fun _ => True))).
Proof.
  split; [exact ACTIVATIONS_keys|]. split; [exact POOLINGS_keys|].
  split; [|split].
  - intros Hno. eexists. split; [apply CNN_init_unsupported, Hno|]. split.
    + intros Hc Hh. now rewrite !bool_decide_eq_true_2.
    + destruct (_ && _); auto.
  - intros Ha Hp Hc Hh. now apply CNN_init_supported.
  - intros cin channels kernel_sizes kw Hne Hlen Hodd. split.
    + intros Hno. apply block_init_unsupported; try assumption.
      destruct (ACTIVATIONS !! ResidualBlock.activation_type kw) eqn:E; [|reflexivity].
      exfalso. apply Hno. now eexists.
    + intros [act Hact].
      destruct (block_init_run kw act cin channels kernel_sizes w
                  (BlockValid _ _ _ _ Hne Hlen Hodd Hact)) as (w' & E).
      eexists _, w'. split; [exact E|exact I].
Qed.

Lemma unsupported_kind_refused_first_witness :
  ~ (is_Some (ACTIVATIONS !! CNN.activation_type Examples.cnn_tanh)
     /\ is_Some (POOLINGS !! CNN.pooling_type Examples.cnn_tanh))
  /\ @CNN.__init__ ShapeTorch CNN._make_feature_extractor Examples.cnn_tanh Examples.w0
     = (Raise (ValueError "Unsupported activation or pooling type"), Examples.w0)
  /\ is_Some (ACTIVATIONS !! CNN.activation_type Examples.cnn)
  /\ is_Some (POOLINGS !! CNN.pooling_type Examples.cnn)
  /\ CNN.channels Examples.cnn ≠ [] /\ CNN.hidden_dims Examples.cnn ≠ []
  /\ @CNN.__init__ ShapeTorch CNN._make_feature_extractor Examples.cnn Examples.w0
     = (fe ← CNN._make_feature_extractor Examples.cnn;
        mlp ← CNN._make_mlp true Examples.cnn (CNN.seq fe);
        mret (CNN.Model Examples.cnn (CNN.seq fe) (CNN.conv_out_w fe) (CNN.conv_out_h fe)
                mlp)) Examples.w0.
Proof.
  assert (Hno : ~ (is_Some (ACTIVATIONS !! CNN.activation_type Examples.cnn_tanh)
                   /\ is_Some (POOLINGS !! CNN.pooling_type Examples.cnn_tanh))).
  { intros [Ha _]. apply ACTIVATIONS_keys in Ha as [Ha|Ha]; discriminate Ha. }
  assert (Ha : is_Some (ACTIVATIONS !! CNN.activation_type Examples.cnn))
    by (apply ACTIVATIONS_keys; now left).
  assert (Hp : is_Some (POOLINGS !! CNN.pooling_type Examples.cnn))
    by (apply POOLINGS_keys; now right).
  assert (Hc : CNN.channels Examples.cnn ≠ []) by discriminate.
  assert (Hh : CNN.hidden_dims Examples.cnn ≠ []) by discriminate.
  assert (Hc' : CNN.channels Examples.cnn_tanh ≠ []) by discriminate.
  assert (Hh' : CNN.hidden_dims Examples.cnn_tanh ≠ []) by discriminate.
  pose proof (@unsupported_kind_refused_first ShapeTorch CNN._make_feature_extractor
                Examples.cnn_tanh Examples.w0) as (_ & _ & R & _).
  pose proof (@unsupported_kind_refused_first ShapeTorch CNN._make_feature_extractor
                Examples.cnn Examples.w0) as (_ & _ & _ & S & _).
  split; [exact Hno|]. split; [|split; [exact Ha|split; [exact Hp|]]].
  - destruct (R Hno) as (e & E & Hv & _). rewrite E. now rewrite (Hv Hc' Hh').
  - split; [exact Hc|]. split; [exact Hh|]. exact (S Ha Hp Hc Hh).
Defined.

(** ** The residual feature extractor *)




Lemma py_getitem_neg {A} (l : list A) (k : nat) (a : A) :
  (0 < k ≤ length l)%nat -> l !! (length l - k)%nat = Some a ->
  py_getitem l (- Z.of_nat k) = Ok a.
Proof.
  intros Hk E. pose proof (lookup_lt_Some _ _ _ E) as Hlt.
  unfold py_getitem.
  destruct (Z.ltb_spec (- Z.of_nat k) 0); [|lia].
  destruct (Z.ltb_spec (- Z.of_nat k + Z.of_nat (length l)) 0); [lia|].
  destruct (Z.leb_spec (Z.of_nat (length l)) (- Z.of_nat k + Z.of_nat (length l))); [lia|].
  cbn. replace (Z.to_nat (- Z.of_nat k + Z.of_nat (length l))) with (length l - k)%nat by lia.
  now rewrite E.
Qed.

Lemma nth_lookup_Some {A} (l : list A) (i : nat) (d : A) :
  (i < length l)%nat -> l !! i = Some (nth i l d).
Proof.
  revert i. induction l as [|a l IH]; intros [|i] Hi; cbn in *; try lia; [reflexivity|].
  apply IH. lia.
Qed.

Lemma Forall_replicate_odd (n : nat) : Forall (fun k => k mod 2 = 1) (replicate n 3).
Proof. induction n; constructor; [reflexivity|assumption]. Qed.

Section ResNetRun.
Context `{Torch}.
Variables (self : ResNet.args) (pk : Z) (act : act_ctor) (f : pool_ctor).
Hypothesis HP : 0 < CNN.pool_every (ResNet.base self).
Hypothesis Hpk : CNN.pooling_params (ResNet.base self) !! "kernel_size" = Some pk.
Hypothesis Hact : ACTIVATIONS !! CNN.activation_type (ResNet.base self) = Some act.

Local Abbreviation all := (ResNetSpec.all_channels self).
Local Abbreviation P := (ResNetSpec.P self).
Local Abbreviation N := (ResNetSpec.N self).
Local Abbreviation pool := (Pool f (VInt <$> CNN.pooling_params (ResNet.base self))).
Local Abbreviation kw := (ResNet.block_opts self).

Lemma pool_every_P : CNN.pool_every (ResNet.base self) = Z.of_nat P.
Proof. unfold ResNetSpec.P. lia. Qed.

Lemma P_pos : (0 < P)%nat.
Proof. unfold ResNetSpec.P. lia. Qed.

Lemma length_all : length all = S N.
Proof. reflexivity. Qed.



Lemma opts_activation : ACTIVATIONS !! ResidualBlock.activation_type kw = Some act.
Proof. exact Hact. Qed.








Local Abbreviation L := (ResNetSpec.L self).

Lemma L_le_N : (L ≤ N)%nat.
Proof. unfold ResNetSpec.L.  apply Nat.Div0.mod_le. Qed.

Lemma py_mod_N_P :
  py_mod (len (CNN.channels (ResNet.base self))) (CNN.pool_every (ResNet.base self))
  = Ok (Z.of_nat L).
Proof.
  unfold py_mod. rewrite pool_every_P. pose proof P_pos.
  destruct (Z.eqb_spec (Z.of_nat P) 0); [lia|].
  unfold len, ResNetSpec.L. now rewrite Nat2Z.inj_mod.
Qed.



Hypothesis Hpk0 : pk ≠ 0.


Hypothesis Hf : POOLINGS !! CNN.pooling_type (ResNet.base self) = Some f.

Local Abbreviation G := (ResNetSpec.N self / ResNetSpec.P self)%nat.



End ResNetRun.

(** ** The remaining channels in the bottleneck form *)

Lemma py_slice_neg_neg {A} (l : list A) (k : nat) :
  (0 < k ≤ length l)%nat ->
  py_slice l (Some (- Z.of_nat k)) (Some (-1)) = take (k - 1) (drop (length l - k) l).
Proof.
  intros Hr. unfold py_slice, py_clamp. cbn [from_option].
  destruct (Z.ltb_spec (- Z.of_nat k) 0); [|lia].
  change (-1 <? 0) with true. cbv iota.
  rewrite !Z.max_r by lia.
  replace (Z.to_nat (- Z.of_nat k + Z.of_nat (length l))) with (length l - k)%nat by lia.
  f_equal. lia.
Qed.

Section RemainderBottleneck.
Context `{Torch}.
Variables (self : ResNet.args) (act : act_ctor).
Hypothesis HP : 0 < CNN.pool_every (ResNet.base self).
Hypothesis Hact : ACTIVATIONS !! CNN.activation_type (ResNet.base self) = Some act.
Hypothesis HL : (0 < ResNetSpec.L self)%nat.
Hypothesis Hsel : ResNetSpec.remainder_selects_bottleneck self = true.

Local Abbreviation all := (ResNetSpec.all_channels self).
Local Abbreviation P := (ResNetSpec.P self).
Local Abbreviation N := (ResNetSpec.N self).
Local Abbreviation L := (ResNetSpec.L self).

(** The remainder in bottleneck mode goes to [ResidualBottleneckBlock]. *)
Lemma remainder_selected (layers : list layer) (w : world) :
  ResNet.remainder self all layers w
  = (block ← ResidualBottleneckBlock.__init__ (ResNetSpec.remainder_in self)
               (take (L - 1) (drop (N - L + 1) all))
               (replicate (P - 2) 3) (ResNet.block_opts self);
     mret (layers ++ [block])) w.
Proof.
  pose proof (L_le_N self) as HLN.
  unfold ResNet.remainder. rewrite (py_mod_N_P self HP), bind_lift_Ok.
  destruct (Z.ltb_spec 0 (Z.of_nat L)); [|lia].
  assert (Ea : py_getitem all (- Z.of_nat L - 1) = Ok (ResNetSpec.remainder_in self)).
  { replace (- Z.of_nat L - 1) with (- Z.of_nat (S L)) by lia.
    apply py_getitem_neg; [rewrite length_all; lia|]. rewrite length_all.
    replace (S N - S L)%nat with (N - L)%nat by lia.
    apply nth_lookup_Some. rewrite length_all. lia. }
  assert (Eb : py_getitem all (-1) = Ok (ResNetSpec.channel_at self N)).
  { change (-1) with (- Z.of_nat 1). apply py_getitem_neg; [rewrite length_all; lia|].
    rewrite length_all. replace (S N - 1)%nat with N by lia.
    apply nth_lookup_Some. rewrite length_all. lia. }
  rewrite Ea, bind_lift_Ok, Eb, bind_lift_Ok.
  unfold ResNetSpec.remainder_selects_bottleneck in Hsel.
  apply andb_true_iff in Hsel as [Hb He]. rewrite Hb, He. cbn [negb orb].
  rewrite py_slice_neg_neg by (rewrite length_all; lia).
  rewrite length_all. replace (S N - L)%nat with (N - L + 1)%nat by lia.
  unfold py_repeat. rewrite (pool_every_P self HP).
  replace (Z.to_nat (Z.of_nat P - 2)) with (P - 2)%nat by lia.
  apply bind_cong; [reflexivity|]. intros block w'. reflexivity.
Qed.

Lemma length_remainder_inner :
  length (take (L - 1) (drop (N - L + 1) all)) = (L - 1)%nat.
Proof.
  pose proof (L_le_N self). rewrite length_take, length_drop, length_all. lia.
Qed.

End RemainderBottleneck.

Lemma bottleneck_init_length_mismatch `{Torch} (C : Z) (inner kernel_sizes : list Z)
    (kw : ResidualBlock.opts) (w : world) :
  length inner ≠ length kernel_sizes ->
  ResidualBottleneckBlock.__init__ C inner kernel_sizes kw w = (Raise AssertionError, w).
Proof.
  intros Hlen. unfold ResidualBottleneckBlock.__init__.
  destruct (0 <? len inner); [|reflexivity].
  cbn [py_assert]. rewrite bind_lift_Ok.
  destruct (Z.eqb_spec (len inner) (len kernel_sizes)) as [E|_]; [|reflexivity].
  unfold len in E. lia.
Qed.

Section RemainderRun.
Context `{Torch}.
Variables (self : ResNet.args) (act : act_ctor).
Hypothesis HP : 0 < CNN.pool_every (ResNet.base self).
Hypothesis Hact : ACTIVATIONS !! CNN.activation_type (ResNet.base self) = Some act.

Local Abbreviation all := (ResNetSpec.all_channels self).
Local Abbreviation P := (ResNetSpec.P self).
Local Abbreviation L := (ResNetSpec.L self).






End RemainderRun.

(** ** What a returned extractor tells about the configuration *)

Lemma lift_inv_Ok `{Torch} {A} (r : result A) (w w' : world) (a : A) :
  lift r w = (Ok a, w') -> r = Ok a /\ w' = w.
Proof. unfold lift. intros E. injection E as -> <-. auto. Qed.





(** Lines 376-377 with a number of poolings that is not negative: the
    power is an int and so is the quotient. *)
Lemma recorded_dim_inv (self : CNN.args) (n d : Z) (r : pynum) :
  0 <= n -> ResNet.recorded_dim self n d = Ok r ->
  exists pk,
    CNN.pooling_params self !! "kernel_size" = Some pk
    /\ pk ^ n ≠ 0 /\ r = PInt (d / pk ^ n).
Proof.
  intros Hn. unfold ResNet.recorded_dim, py_lookup.
  destruct (CNN.pooling_params self !! "kernel_size") as [pk|]; [|discriminate].
  cbn. unfold py_pow. destruct (Z.leb_spec 0 n); [|lia]. cbn.
  unfold py_floordiv. destruct (Z.eqb_spec (pk ^ n) 0) as [E|E]; [discriminate|].
  cbn. intros [= <-]. exists pk. auto.
Qed.

Section ResNetGeneral.
Context `{Torch}.
Variable self : ResNet.args.
Hypothesis HP : 0 < CNN.pool_every (ResNet.base self).

Local Abbreviation all := (ResNetSpec.all_channels self).
Local Abbreviation P := (ResNetSpec.P self).
Local Abbreviation N := (ResNetSpec.N self).
Local Abbreviation L := (ResNetSpec.L self).
Local Abbreviation G := (ResNetSpec.N self / ResNetSpec.P self)%nat.
Local Abbreviation in_w := (CNN.in_size (ResNet.base self)).2.
Local Abbreviation in_h := (CNN.in_size (ResNet.base self)).1.2.




End ResNetGeneral.




Section ResNetExtractor.
Context `{Torch}.
Variable self : ResNet.args.
Hypothesis HP : 0 < CNN.pool_every (ResNet.base self).

Local Abbreviation all := (ResNetSpec.all_channels self).
Local Abbreviation P := (ResNetSpec.P self).
Local Abbreviation N := (ResNetSpec.N self).
Local Abbreviation L := (ResNetSpec.L self).
Local Abbreviation G := (ResNetSpec.N self / ResNetSpec.P self)%nat.
Local Abbreviation in_w := (CNN.in_size (ResNet.base self)).2.
Local Abbreviation in_h := (CNN.in_size (ResNet.base self)).1.2.






End ResNetExtractor.



(** ** The classifier head *)

(** Induction on modules, through the paths of residual blocks. *)
Lemma layer_nested_ind (Q : layer -> Prop) :
  (forall l, is_library_module l = true -> Q l) ->
  (forall main_path shortcut_path,
     Forall Q main_path -> Forall Q shortcut_path ->
     Q (ResidualBlock main_path shortcut_path)) ->
  forall l, Q l.
Proof.
  intros Hlib Hres. fix IH 1.
  intros [a b c|a b|a b|p|n| |m s|a b c]; try (apply Hlib; reflexivity).
  apply Hres.
  - revert m. fix IHm 1. intros [|x ls]; constructor; [apply IH|apply IHm].
  - revert s. fix IHs 1. intros [|x ls]; constructor; [apply IH|apply IHs].
Qed.

Section Uniform.
Context `{Torch}.
Hypothesis lawful : shape_lawful.

Lemma call_library (training : bool) (l : layer) (x : tensor) (w : world) :
  is_library_module l = true ->
  call training l x w
  = (let '(r, g) := call_module l training x (rng w) in
     (r, {| rng := g; built := built w |})).
Proof. destruct l; (discriminate || reflexivity). Qed.

Lemma uniform_library (l : layer) :
  is_library_module l = true -> uniform (fun t => call t l).
Proof.
  intros Hl x w y w' s E Hs. rewrite call_library in E by exact Hl.
  destruct (call_module l true x (rng w)) as [r g] eqn:Ec.
  injection E as -> <-.
  destruct (sl_call lawful l x (rng w) y g s Ec Hs) as (s' & Hy & Hb).
  exists s'. split; [exact Hy|].
  intros t x2 w2 b Hb0 Hx2.
  destruct (Hb t x2 (rng w2) b Hb0 Hx2) as (y2 & g2 & E2 & Hy2).
  exists y2, {| rng := g2; built := built w2 |}.
  rewrite call_library by exact Hl. rewrite E2. auto.
Qed.

Lemma uniform_Sequential (ls : list layer) :
  Forall (fun l => uniform (fun t => call t l)) ls ->
  uniform (fun t => Sequential t ls).
Proof.
  induction 1 as [|l ls Hl _ IH]; intros x w y w' s E Hs.
  - cbn in E. injection E as <- <-. exists s. split; [exact Hs|].
    intros t x2 w2 b _ Hx2. exists x2, w2. auto.
  - cbn [Sequential] in E. apply bind_inv_Ok in E as (y1 & w1 & E1 & E2).
    destruct (Hl x w y1 w1 s E1 Hs) as (s1 & Hy1 & Hb1).
    destruct (IH y1 w1 y w' s1 E2 Hy1) as (s' & Hy & Hb).
    exists s'. split; [exact Hy|].
    intros t x2 w2 b Hb0 Hx2.
    destruct (Hb1 t x2 w2 b Hb0 Hx2) as (z & wz & Ez & Hz).
    destruct (Hb t z wz b Hb0 Hz) as (y2 & w2' & Ey2 & Hy2).
    exists y2, w2'. cbn [Sequential]. rewrite (bind_Ok _ _ _ _ _ Ez). auto.
Qed.

Lemma uniform_ResidualBlock (main_path shortcut_path : list layer) :
  uniform (fun t => Sequential t main_path) ->
  uniform (fun t => Sequential t shortcut_path) ->
  uniform (fun t => call t (ResidualBlock main_path shortcut_path)).
Proof.
  intros Hm Hs x w y w' s E Hx. rewrite call_ResidualBlock in E.
  apply bind_inv_Ok in E as (a & w1 & Ea & E).
  apply bind_inv_Ok in E as (b & w2 & Eb & E).
  destruct (torch_add a b) as [c|e] eqn:Ec; [|discriminate].
  rewrite bind_lift_Ok in E. injection E as <- <-.
  destruct (Hm x w a w1 s Ea Hx) as (s1 & Ha & Hma).
  destruct (Hs x w1 b w2 s Eb Hx) as (s2 & Hb & Hsb).
  destruct (sl_add lawful a b c s1 s2 Ec Ha Hb) as (s3 & Hc & Hadd).
  exists s3. split; [now rewrite (sl_relu lawful)|].
  intros t x2 wz n Hn Hx2.
  destruct (Hma t x2 wz n Hn Hx2) as (a2 & wa & Ea2 & Ha2).
  destruct (Hsb t x2 wa n Hn Hx2) as (b2 & wb & Eb2 & Hb2).
  destruct (Hadd a2 b2 n Hn Ha2 Hb2) as (c2 & Ec2 & Hc2).
  exists (torch_relu c2), wb. rewrite call_ResidualBlock.
  rewrite (bind_Ok _ _ _ _ _ Ea2), (bind_Ok _ _ _ _ _ Eb2), Ec2.
  split; [reflexivity|]. now rewrite (sl_relu lawful).
Qed.

Lemma uniform_call (l : layer) : uniform (fun t => call t l).
Proof.
  induction l as [l Hl|m s Hm Hs] using layer_nested_ind.
  - now apply uniform_library.
  - apply uniform_ResidualBlock; now apply uniform_Sequential.
Qed.

Lemma uniform_pipeline (ls : list layer) : uniform (fun t => Sequential t ls).
Proof. apply uniform_Sequential, Forall_forall. intros l _. apply uniform_call. Qed.

End Uniform.

Section Head.
Context `{Torch}.

(** What a successful [CNN.__init__] has done: the extractor is the one of
    [mfe], and the head was given the element count of the extractor's
    output on the zero input, measured in training mode. *)
Lemma CNN_init_inv (mfe : CNN.args -> M CNN.extractor) (self : CNN.args)
    (w w' : world) (m : CNN.model) :
  CNN.__init__ mfe self w = (Ok m, w') ->
  exists fe w1 wp ext wq act,
    mfe self w = (Ok fe, w1)
    /\ CNN.self m = self
    /\ CNN.feature_extractor m = CNN.seq fe
    /\ CNN.out_w m = CNN.conv_out_w fe /\ CNN.out_h m = CNN.conv_out_h fe
    /\ Sequential true (CNN.seq fe)
         (torch_unsqueeze0
            (torch_zeros [(CNN.in_size self).1.1; (CNN.in_size self).1.2;
                          (CNN.in_size self).2])) wp = (Ok ext, wq)
    /\ CNN.mlp m
       = MLP (torch_numel ext) (CNN.hidden_dims self ++ [CNN.out_classes self])
           (replicate (length (CNN.hidden_dims self))
              (inl (Activation act (CNN.activation_params self))) ++ [inr "none"]).
Proof.
  unfold CNN.__init__. intros E.
  apply bind_inv_Ok in E as (u & w0 & Eu & E).
  unfold lift in Eu. injection Eu as _ <-.
  destruct (negb _ || negb _); [discriminate|].
  apply bind_inv_Ok in E as (fe & w1 & Efe & E).
  apply bind_inv_Ok in E as (mlp & w2 & Emlp & E).
  injection E as <- <-.
  unfold CNN._make_mlp in Emlp.
  apply bind_inv_Ok in Emlp as (act & w3 & _ & Emlp).
  apply bind_inv_Ok in Emlp as (phi & wp & Ephi & Emlp).
  apply bind_inv_Ok in Emlp as (n & w5 & En & Emlp).
  unfold new_module in Ephi. cbn in Ephi. injection Ephi as <- <-.
  unfold new_module in Emlp. cbn in Emlp. injection Emlp as <- <-.
  rewrite n_features_run in En.
  destruct (CNN.in_size self) as [[c h] w_]. cbn [fst snd].
  destruct (Sequential true (CNN.seq fe) (torch_unsqueeze0 (torch_zeros [c; h; w_])) _)
    as [[ext|e] wq] eqn:Es; [|discriminate].
  injection En as <- <-.
  eexists fe, _, _, ext, wq, act. repeat split; [exact Efe|exact Es].
Qed.

End Head.

(** In the reference instance a module that accepts one sample in
    training mode accepts any batch in any mode. *)
Lemma out_shape_uniform (l : layer) (s y : list Z) :
  Shape.out_shape l true (1 :: s) = Ok y ->
  exists s', y = 1 :: s'
    /\ forall t b, 0 < b -> Shape.out_shape l t (b :: s) = Ok (b :: s').
Proof.
  intros E.
  destruct l as [cin cout kw|a kw|p kw|p|n| |m sc|d dims nl]; cbn [Shape.out_shape] in E.
  - destruct s as [|c [|h [|w_ [|? ?]]]]; try discriminate.
    destruct (c =? cin) eqn:Ec; [|discriminate].
    destruct (Shape.conv_extent kw h) as [h'|] eqn:Eh; [|discriminate].
    destruct (Shape.conv_extent kw w_) as [w'|] eqn:Ew; [|discriminate].
    injection E as <-. eexists. split; [reflexivity|].
    intros t b Hb. cbn [Shape.out_shape]. now rewrite Ec, Eh, Ew.
  - injection E as <-. eexists. split; [reflexivity|]. reflexivity.
  - destruct s as [|c [|h [|w_ [|? ?]]]]; try discriminate.
    destruct (Shape.pool_extent kw h) as [h'|] eqn:Eh; [|discriminate].
    destruct (Shape.pool_extent kw w_) as [w'|] eqn:Ew; [|discriminate].
    injection E as <-. eexists. split; [reflexivity|].
    intros t b Hb. cbn [Shape.out_shape]. now rewrite Eh, Ew.
  - destruct s as [|c [|h [|w_ [|? ?]]]]; try discriminate.
    injection E as <-. eexists. split; [reflexivity|]. reflexivity.
  - destruct s as [|c [|h [|w_ [|? ?]]]]; try discriminate.
    destruct (c =? n) eqn:Ec; [|discriminate]. cbn [negb andb] in E.
    destruct (1 * h * w_ =? 1) eqn:E1; [discriminate|].
    injection E as <-. eexists. split; [reflexivity|].
    intros t b Hb. cbn [Shape.out_shape]. rewrite Ec. cbn [negb].
    apply Z.eqb_neq in E1.
    destruct (Z.eqb_spec (b * h * w_) 1) as [E2|_].
    + exfalso. assert (b = 1) by nia. subst b. lia.
    + now rewrite andb_false_r.
  - injection E as <-. eexists. split; [reflexivity|]. reflexivity.
  - discriminate.
  - destruct s as [|f0 [|? ?]]; try discriminate.
    destruct (f0 =? d) eqn:Ef; [|discriminate].
    injection E as <-. eexists. split; [reflexivity|].
    intros t b Hb. cbn [Shape.out_shape]. now rewrite Ef.
Qed.

(** The reference instance satisfies the shape laws. *)
Lemma ShapeTorch_lawful : @shape_lawful ShapeTorch.
Proof.
  split.
  - reflexivity.
  - reflexivity.
  - reflexivity.
  - reflexivity.
  - intros x b s Hx Hb. cbn in *. subst x. unfold Shape.reshape.
    assert (F1 : filter (fun d : Z => d ≠ -1) [b; -1] = [b]).
    { rewrite filter_cons_True by lia. rewrite filter_cons_False by lia. reflexivity. }
    assert (F2 : filter (fun d : Z => d = -1) [b; -1] = [-1]).
    { rewrite filter_cons_False by lia. rewrite filter_cons_True by lia. reflexivity. }
    rewrite F1, F2. cbn [length Shape.prod foldr]. fold (Shape.prod s).
    rewrite Z.mul_1_r.
    destruct (Z.eqb_spec b 0); [lia|].
    rewrite (Z.mul_comm b), Z_mod_mult. cbn [negb orb Z.eqb].
    eexists. split; [reflexivity|]. cbn.
    destruct (Z.eqb_spec b (-1)); [lia|].
    now rewrite Z_div_mult by lia.
  - intros l x g y g' s E Hx. cbn in *. subst x.
    injection E as E _.
    destruct (out_shape_uniform l s y E) as (s' & -> & Hu).
    exists s'. split; [reflexivity|].
    intros t x2 g2 b Hb ->. eexists _, _. split; [|reflexivity].
    now rewrite (Hu t b Hb).
  - intros a b c s1 s2 E Ha Hb. cbn in *. subst a b. cbn in E.
    destruct (Shape.broadcast s1 s2) as [r|] eqn:Er; [|discriminate].
    cbn in E. injection E as <-. exists r. split; [reflexivity|].
    intros a2 b2 n Hn -> ->. cbn. rewrite Er. cbn. rewrite Z.eqb_refl.
    eexists. split; reflexivity.
  - intros d dims nl t x g b Hb Hx. cbn in *. subst x.
    eexists _, _. cbn. rewrite Z.eqb_refl. split; reflexivity.
Qed.

(** C10: in every model that [CNN.__init__] returns, of whatever class, the
    input dimension of the classifier head is the element count of what
    the assembled extractor returns on one zero input of the configured
    shape: it is measured by running the extractor, not taken from the
    recorded [conv_out_h] and [conv_out_w].  So, when the torch library
    obeys the shape laws, the forward pass of the model accepts every
    non-empty batch of inputs of the configured shape and returns one score
    per class for each of them. *)
Theorem classifier_input_is_measured `{Torch} (mfe : CNN.args -> M CNN.extractor)
    (self : CNN.args) (w w' : world) (m : CNN.model) :
  CNN.__init__ mfe self w = (Ok m, w') ->
  let shape := [(CNN.in_size self).1.1; (CNN.in_size self).1.2; (CNN.in_size self).2] in
  (exists wp ext wq nonlins,
     Sequential true (CNN.feature_extractor m)
       (torch_unsqueeze0 (torch_zeros shape)) wp = (Ok ext, wq)
     /\ CNN.mlp m
        = MLP (torch_numel ext) (CNN.hidden_dims self ++ [CNN.out_classes self]) nonlins)
  /\ (shape_lawful ->
      forall training x w2 b,
        0 < b -> tensor_shape x = b :: shape ->
        exists y w3,
          CNN.forward training m x w2 = (Ok y, w3)
          /\ tensor_shape y = [b; CNN.out_classes self]).
Proof.
  intros E shape.
  destruct (CNN_init_inv mfe self w w' m E)
    as (fe & w1 & wp & ext & wq & act & _ & _ & Hfe & _ & _ & Es & Hmlp).
  fold shape in Es. split.
  - exists wp, ext, wq. eexists. rewrite Hfe. split; [exact Es|exact Hmlp].
  - intros lawful training x w2 b Hb Hx.
    assert (H0 : tensor_shape (torch_unsqueeze0 (torch_zeros shape)) = 1 :: shape)
      by now rewrite (sl_unsqueeze lawful), (sl_zeros lawful).
    destruct (uniform_pipeline lawful (CNN.seq fe) _ _ _ _ _ Es H0) as (s' & Hext & Hu).
    destruct (Hu training x w2 b Hb Hx) as (out & wo & Eo & Ho).
    destruct (sl_reshape lawful out b s' Ho Hb) as (flat & Er & Hflat).
    assert (Hn : torch_numel ext = Shape.prod s').
    { rewrite (sl_numel lawful), Hext. unfold Shape.prod. cbn [foldr].
      apply Z.mul_1_l. }
    rewrite <- Hn in Hflat.
    destruct (sl_mlp lawful (torch_numel ext) (CNN.hidden_dims self ++ [CNN.out_classes self])
                (replicate (length (CNN.hidden_dims self))
                   (inl (Activation act (CNN.activation_params self))) ++ [inr "none"])
                training flat (rng wo) b Hb Hflat) as (y & g & Ey & Hy).
    exists y, {| rng := g; built := built wo |}.
    unfold CNN.forward. rewrite Hfe, (bind_Ok _ _ _ _ _ Eo), Ho.
    change (py_getitem (b :: s') 0) with (Ok (A:=Z) b) at 1.
    rewrite bind_lift_Ok, Er, bind_lift_Ok, Hmlp.
    erewrite bind_Ok.
    2:{ rewrite call_library by reflexivity. rewrite Ey. reflexivity. }
    split; [reflexivity|]. now rewrite Hy, last_last.
Qed.

(** The head of the example, computed: the recorded dimensions are
    14 x 14, the extractor returns 64 x 16 x 16 = 16384 elements. *)
Lemma head_of_example :
  match fst (@CNN.__init__ ShapeTorch CNN._make_feature_extractor Examples.cnn Examples.w0) with
  | Ok m =>
      (exists nonlins, CNN.mlp m = MLP 16384 [10; 5] nonlins)
      /\ CNN.out_w m = PInt 14 /\ CNN.out_h m = PInt 14
  | Raise _ => False
  end.
Proof. vm_compute. split; [eexists; reflexivity|split; reflexivity]. Qed.

Lemma classifier_input_is_measured_witness :
  exists m w',
    @CNN.__init__ ShapeTorch CNN._make_feature_extractor Examples.cnn Examples.w0 = (Ok m, w')
    /\ @shape_lawful ShapeTorch
    /\ (exists nonlins, CNN.mlp m = MLP 16384 [10; 5] nonlins)
    /\ CNN.out_w m = PInt 14 /\ CNN.out_h m = PInt 14
    /\ (forall (x : @tensor ShapeTorch) (w2 : @world ShapeTorch) b,
          0 < b -> @tensor_shape ShapeTorch x = [b; 3; 32; 32] ->
          exists y w3, @CNN.forward ShapeTorch false m x w2 = (Ok y, w3)
                       /\ @tensor_shape ShapeTorch y = [b; 5]).
Proof.
  pose proof head_of_example as P.
  destruct (@CNN.__init__ ShapeTorch CNN._make_feature_extractor Examples.cnn Examples.w0)
    as [[m|e] w'] eqn:E; cbn [fst] in P; [|contradiction].
  destruct P as (Hm & Hw & Hh).
  exists m, w'. split; [reflexivity|]. split; [exact ShapeTorch_lawful|].
  split; [exact Hm|]. split; [exact Hw|]. split; [exact Hh|].
  destruct (@classifier_input_is_measured ShapeTorch CNN._make_feature_extractor
              Examples.cnn Examples.w0 w' m E) as [_ F].
  intros x w2 b Hb Hx.
  exact (F ShapeTorch_lawful false x w2 b Hb Hx).
Defined.

(** ** Further properties of the constructors *)

(** X1: [CNN.__init__] refuses a configuration without channels or without
    hidden dimensions with an AssertionError, whatever the class of the
    model and whatever its kinds, before anything is instantiated. *)
Theorem CNN_init_needs_channels_and_hidden_dims `{Torch}
    (mfe : CNN.args -> M CNN.extractor) (self : CNN.args) (w : world) :
  CNN.channels self = [] \/ CNN.hidden_dims self = [] ->
  CNN.__init__ mfe self w = (Raise AssertionError, w).
Proof.
  intros Hempty. unfold CNN.__init__.
  assert (E : bool_decide (CNN.channels self ≠ []) && bool_decide (CNN.hidden_dims self ≠ [])
              = false).
  { destruct Hempty as [E|E]; rewrite E.
    - rewrite bool_decide_eq_false_2 by congruence. reflexivity.
    - rewrite (bool_decide_eq_false_2 ([] ≠ [])) by congruence. apply andb_false_r. }
  rewrite E. reflexivity.
Qed.

Lemma CNN_init_needs_channels_and_hidden_dims_witness :
  (CNN.channels Examples.cnn_no_channels = []
   \/ CNN.hidden_dims Examples.cnn_no_channels = [])
  /\ @CNN.__init__ ShapeTorch CNN._make_feature_extractor Examples.cnn_no_channels Examples.w0
     = (Raise AssertionError, Examples.w0).
Proof.
  assert (Hc : CNN.channels Examples.cnn_no_channels = []
               \/ CNN.hidden_dims Examples.cnn_no_channels = []) by (left; reflexivity).
  split; [exact Hc|].
  exact (@CNN_init_needs_channels_and_hidden_dims ShapeTorch CNN._make_feature_extractor
           Examples.cnn_no_channels Examples.w0 Hc).
Defined.

Lemma forallb_odd_inv (kernel_sizes : list Z) :
  forallb (fun x => x mod 2 =? 1) kernel_sizes = true ->
  Forall (fun k => k mod 2 = 1) kernel_sizes.
Proof.
  induction kernel_sizes as [|k ks IH]; intros E; constructor.
  - cbn in E. apply andb_true_iff in E as [E _]. now apply Z.eqb_eq.
  - cbn in E. apply andb_true_iff in E as [_ E]. now apply IH.
Qed.

(** X2: [ResidualBlock.__init__] refuses with an AssertionError, before
    anything is instantiated, every specification whose channel sequence
    is empty, whose kernel-size sequence has another length, or one of
    whose kernel sizes is even. *)
Theorem ResidualBlock_init_asserts `{Torch} (cin : Z) (channels kernel_sizes : list Z)
    (kw : ResidualBlock.opts) (w : world) :
  ~ (channels ≠ [] /\ length channels = length kernel_sizes
     /\ Forall (fun k => k mod 2 = 1) kernel_sizes) ->
  ResidualBlock.__init__ cin channels kernel_sizes kw w = (Raise AssertionError, w).
Proof.
  intros Hbad. unfold ResidualBlock.__init__.
  destruct (bool_decide (channels ≠ []) && bool_decide (kernel_sizes ≠ [])) eqn:E1;
    [|reflexivity].
  cbn [py_assert]. rewrite bind_lift_Ok.
  destruct (len channels =? len kernel_sizes) eqn:E2; [|reflexivity].
  cbn [py_assert]. rewrite bind_lift_Ok.
  destruct (forallb (fun x => x mod 2 =? 1) kernel_sizes) eqn:E3; [|reflexivity].
  exfalso. apply Hbad.
  apply andb_true_iff in E1 as [E1 _]. apply bool_decide_eq_true in E1.
  apply Z.eqb_eq in E2. unfold len in E2.
  split; [exact E1|]. split; [lia|]. now apply forallb_odd_inv.
Qed.

Lemma ResidualBlock_init_asserts_witness :
  ~ ([4; 5] ≠ [] /\ length [4; 5] = length [3; 4]
     /\ Forall (fun k => k mod 2 = 1) [3; 4])
  /\ @ResidualBlock.__init__ ShapeTorch 3 [4; 5] [3; 4] Examples.block_opts Examples.w0
     = (Raise AssertionError, Examples.w0).
Proof.
  assert (Hbad : ~ ([4; 5] ≠ [] /\ length [4; 5] = length [3; 4]
                    /\ Forall (fun k => k mod 2 = 1) [3; 4])).
  { intros (_ & _ & Hodd). inversion Hodd as [|? ? _ Ht]. inversion Ht as [|? ? He _].
    discriminate He. }
  split; [exact Hbad|].
  exact (@ResidualBlock_init_asserts ShapeTorch 3 [4; 5] [3; 4] Examples.block_opts
           Examples.w0 Hbad).
Defined.

(** The main path has one convolution per channel entry. *)
Lemma main_path_spec_convs (kw : ResidualBlock.opts) (act : act_ctor) (kwa : kwargs)
    (channels : list Z) :
  forall (cin : Z) (kernel_sizes : list Z),
    length channels = length kernel_sizes ->
    length (List.filter is_conv
              (main_path_spec kw (Activation act kwa) cin channels kernel_sizes))
    = length channels.
Proof.
  induction channels as [|c cs IH]; intros cin [|k ks] Hlen; try discriminate Hlen;
    [reflexivity|].
  cbn [main_path_spec List.filter is_conv length]. f_equal.
  destruct cs as [|c' cs']; [reflexivity|].
  rewrite List.filter_app.
  assert (Ha : List.filter is_conv (after_conv kw (Activation act kwa) c) = []).
  { unfold after_conv.
    destruct (Qpositive (ResidualBlock.dropout kw)), (ResidualBlock.batchnorm kw);
      reflexivity. }
  rewrite Ha. cbn [app]. apply IH. cbn [length] in *. lia.
Qed.

Lemma last_default {A} (l : list A) (a d d' : A) :
  List.last (a :: l) d = List.last (a :: l) d'.
Proof.
  revert a. induction l as [|b l IH]; intros a; [reflexivity|].
  change (List.last (b :: l) d = List.last (b :: l) d'). apply IH.
Qed.

(** The main path ends with the convolution into the last channel entry. *)
Lemma main_path_spec_last (kw : ResidualBlock.opts) (phi : layer) (channels : list Z) :
  forall (cin c k : Z) (kernel_sizes : list Z),
    length channels = length kernel_sizes ->
    exists front,
      main_path_spec kw phi cin (channels ++ [c]) (kernel_sizes ++ [k])
      = front ++ [Conv2d (List.last channels cin) c (ResidualBlock.main_conv_kw k)].
Proof.
  induction channels as [|c0 cs IH]; intros cin c k [|k0 ks] Hlen; try discriminate Hlen.
  - exists []. reflexivity.
  - cbn [length] in Hlen.
    destruct (IH c0 c k ks ltac:(lia)) as (front & E).
    exists (Conv2d cin c0 (ResidualBlock.main_conv_kw k0) :: after_conv kw phi c0 ++ front).
    cbn [app main_path_spec].
    destruct (cs ++ [c]) as [|x xs] eqn:Ex; [destruct cs; discriminate Ex|].
    rewrite E. rewrite <- app_assoc. cbn [app].
    f_equal. f_equal. f_equal. f_equal.
    destruct cs as [|c1 cs1]; [reflexivity|].
    change (List.last (c0 :: c1 :: cs1) cin) with (List.last (c1 :: cs1) cin).
    now rewrite (last_default cs1 c1 c0 cin).
Qed.

(** X3: a bottleneck block built from valid inner sequences has the
    identity as shortcut, never a projection; its main path has two
    convolutions more than inner channels, begins with the 1x1 convolution
    from the in/out channel count to the first inner channel and ends with
    the 1x1 convolution from the last inner channel back to the in/out
    channel count. *)
Theorem bottleneck_block_topology `{Torch} (C c1 : Z) (cs kernel_sizes : list Z)
    (kw : ResidualBlock.opts) (act : act_ctor) (w : world) :
  block_valid (c1 :: cs) kernel_sizes kw act ->
  returns (ResidualBottleneckBlock.__init__ C (c1 :: cs) kernel_sizes kw) w (fun block =>
    exists main_path front,
      block = ResidualBlock main_path [Identity]
      /\ length (List.filter is_conv main_path) = (length (c1 :: cs) + 2)%nat
      /\ List.hd Identity main_path = Conv2d C c1 (ResidualBlock.main_conv_kw 1)
      /\ main_path
         = front ++ [Conv2d (List.last (c1 :: cs) c1) C (ResidualBlock.main_conv_kw 1)]).
Proof.
  intros [Hne Hlen Hodd Hact].
  assert (V : block_valid (c1 :: c1 :: cs ++ [C]) (1 :: kernel_sizes ++ [1]) kw act).
  { split; [discriminate| | |exact Hact].
    - cbn [length] in *. rewrite !length_app. cbn [length]. lia.
    - constructor; [reflexivity|]. apply Forall_app. split; [exact Hodd|].
      constructor; [reflexivity|constructor]. }
  destruct (block_init_run kw act C _ _ w V) as (w' & E).
  eexists _, w'. split; [rewrite bottleneck_init_eq by exact Hlen; exact E|].
  unfold residual_block_spec.
  destruct (main_path_spec_last kw (Activation act (ResidualBlock.activation_params kw))
              (c1 :: c1 :: cs) C C 1 (1 :: kernel_sizes) ltac:(cbn [length] in *; lia))
    as (front & Ef).
  eexists _, front. split; [|split; [|split]].
  - f_equal. unfold shortcut_path_spec.
    change (c1 :: c1 :: cs ++ [C]) with ((c1 :: c1 :: cs) ++ [C]).
    rewrite last_last, Z.eqb_refl. reflexivity.
  - rewrite main_path_spec_convs by (cbn [length] in *; rewrite !length_app; cbn [length]; lia).
    cbn [length]. rewrite length_app. cbn [length]. lia.
  - reflexivity.
  - change (c1 :: c1 :: cs ++ [C]) with ((c1 :: c1 :: cs) ++ [C]).
    change (1 :: kernel_sizes ++ [1]) with ((1 :: kernel_sizes) ++ [1]).
    rewrite Ef. f_equal. f_equal. f_equal.
    change (List.last (c1 :: c1 :: cs) C) with (List.last (c1 :: cs) C).
    apply last_default.
Qed.

Lemma bottleneck_block_topology_witness :
  block_valid [5; 7] [3; 5] Examples.block_opts LeakyReLU
  /\ returns (ResidualBottleneckBlock.__init__ 10 [5; 7] [3; 5] Examples.block_opts)
       Examples.w0
       (fun block => exists main_path front,
          block = ResidualBlock main_path [Identity]
          /\ length (List.filter is_conv main_path) = 4%nat
          /\ List.hd Identity main_path = Conv2d 10 5 (ResidualBlock.main_conv_kw 1)
          /\ main_path = front ++ [Conv2d 7 10 (ResidualBlock.main_conv_kw 1)]).
Proof.
  assert (V : block_valid [5; 7] [3; 5] Examples.block_opts LeakyReLU).
  { split; [discriminate|reflexivity| |reflexivity]. repeat constructor. }
  split; [exact V|].
  exact (bottleneck_block_topology 10 5 [7] [3; 5] Examples.block_opts LeakyReLU
           Examples.w0 V).
Defined.

Section NoModuleBuilt.
Context `{Torch}.



End NoModuleBuilt.


Section YourCNNIsResNet.
Context `{Torch}.

Lemma py_for_ext {A S} (body1 body2 : S -> A -> M (ctl S)) (l : list A) :
  (forall x, In x l -> forall s w, body1 s x w = body2 s x w) ->
  forall s w, py_for body1 l s w = py_for body2 l s w.
Proof.
  induction l as [|x l IH]; intros Hb s w; [reflexivity|].
  cbn [py_for]. apply bind_cong; [apply Hb; now left|].
  intros [s'|s'] w'; [|reflexivity].
  apply IH. intros y Hy. apply Hb. now right.
Qed.

Lemma py_getitem_in_range {A} (l : list A) (i : Z) :
  0 <= i < len l -> exists a, py_getitem l i = Ok a.
Proof.
  intros Hi. unfold len in Hi.
  destruct (lookup_lt_is_Some_2 l (Z.to_nat i) ltac:(lia)) as [a Ha].
  exists a. rewrite <- (Z2Nat.id i) by lia. now apply py_getitem_lookup.
Qed.

Variable self : YourCNN.args.

(** The residual network with the attributes of [self] and bottleneck mode
    disabled. *)
Let plain : ResNet.args :=
  ResNet.Args (YourCNN.base self) (YourCNN.batchnorm self) (YourCNN.dropout self) false.

Lemma YourCNN_loop_body_eq (all_channels : list Z) (f : pool_ctor) (layers : list layer)
    (i : Z) (w : world) :
  0 <= CNN.pool_every (YourCNN.base self) * (i + 1) < len all_channels ->
  YourCNN.loop_body self all_channels f layers i w
  = ResNet.loop_body plain all_channels f layers i w.
Proof.
  intros Hr. unfold YourCNN.loop_body, ResNet.loop_body.
  change (CNN.pool_every (ResNet.base plain)) with (CNN.pool_every (YourCNN.base self)).
  destruct (py_getitem_in_range all_channels _ Hr) as (b & Eb).
  destruct (py_getitem all_channels (i * CNN.pool_every (YourCNN.base self)))
    as [a|e] eqn:Ea.
  - rewrite !bind_lift_Ok, Eb, bind_lift_Ok.
    change (ResNet.bottleneck plain) with false. rewrite orb_true_r.
    apply bind_cong; [reflexivity|]. intros block w'. reflexivity.
  - reflexivity.
Qed.

Lemma YourCNN_remainder_eq (c : Z) (channels : list Z) (layers : list layer) (w : world) :
  YourCNN.remainder self (c :: channels) layers w
  = ResNet.remainder plain (c :: channels) layers w.
Proof.
  unfold YourCNN.remainder, ResNet.remainder.
  change (CNN.pool_every (ResNet.base plain)) with (CNN.pool_every (YourCNN.base self)).
  change (CNN.channels (ResNet.base plain)) with (CNN.channels (YourCNN.base self)).
  apply bind_cong; [reflexivity|]. intros length w'.
  destruct (0 <? length); [|reflexivity].
  rewrite (py_getitem_last (c :: channels) c) by discriminate.
  destruct (py_getitem (c :: channels) (- length - 1)) as [a|e] eqn:Ea.
  - rewrite !bind_lift_Ok.
    change (ResNet.bottleneck plain) with false. rewrite orb_true_r.
    apply bind_cong; [reflexivity|]. intros block w''. reflexivity.
  - reflexivity.
Qed.

Lemma YourCNN_extractor_eq (w : world) :
  YourCNN._make_feature_extractor self w = ResNet._make_feature_extractor plain w.
Proof.
  unfold YourCNN._make_feature_extractor, ResNet._make_feature_extractor.
  change (ResNet.base plain) with (YourCNN.base self).
  destruct (CNN.in_size (YourCNN.base self)) as [[in_channels in_h] in_w].
  apply bind_cong; [reflexivity|]. intros f w1.
  unfold py_floordiv.
  destruct (Z.eqb_spec (CNN.pool_every (YourCNN.base self)) 0) as [E0|E0]; [reflexivity|].
  rewrite !bind_lift_Ok.
  apply bind_cong.
  - apply py_for_ext. intros i Hi s w2. apply YourCNN_loop_body_eq.
    apply list_elem_of_In, elem_of_seqZ in Hi.
    set (P := CNN.pool_every (YourCNN.base self)) in *.
    set (n := len (CNN.channels (YourCNN.base self))) in *.
    assert (Hn : 0 <= n) by (subst n; unfold len; lia).
    assert (HP : 0 < P).
    { destruct (Z.lt_trichotomy P 0) as [Hneg|[Hz|Hpos]]; [|contradiction|exact Hpos].
      exfalso. assert (n / P <= 0).
      { pose proof (Z.div_mod n P ltac:(lia)). pose proof (Z.mod_neg_bound n P Hneg). nia. }
      lia. }
    pose proof (Z.mul_div_le n P HP).
    replace (len ([in_channels] ++ CNN.channels (YourCNN.base self))) with (n + 1)
      by (subst n; unfold len; cbn [app length]; lia).
    nia.
  - intros layers w2. apply bind_cong; [apply YourCNN_remainder_eq|].
    intros layers' w3. reflexivity.
Qed.

End YourCNNIsResNet.

(** X5: the feature extractor of [YourCNN] is the one of [ResNet] with the
    same attributes and bottleneck mode disabled, for every configuration:
    the same modules, the same recorded dimensions, the same exceptions
    and the same effects; and so is the whole model. *)
Theorem YourCNN_is_ResNet_without_bottleneck `{Torch} (self : YourCNN.args) (w : world) :
  let plain := ResNet.Args (YourCNN.base self) (YourCNN.batchnorm self)
                 (YourCNN.dropout self) false in
  YourCNN._make_feature_extractor self w = ResNet._make_feature_extractor plain w
  /\ YourCNN.__init__ self w = ResNet.__init__ plain w.
Proof.
  intros plain. split; [apply YourCNN_extractor_eq|].
  unfold YourCNN.__init__, ResNet.__init__, CNN.__init__.
  change (ResNet.base plain) with (YourCNN.base self).
  apply bind_cong; [reflexivity|]. intros u w1.
  destruct (negb _ || negb _); [reflexivity|].
  apply bind_cong; [apply YourCNN_extractor_eq|]. intros fe w2. reflexivity.
Qed.

(** The recorded dimensions of an extractor that is returned are the
    results of lines 376-377, and the pooling interval is not zero. *)
Lemma resnet_extractor_dims_inv `{Torch} (self : ResNet.args) (w w' : world)
    (e : CNN.extractor) :
  ResNet._make_feature_extractor self w = (Ok e, w') ->
  let pools := len (CNN.channels (ResNet.base self)) / CNN.pool_every (ResNet.base self) in
  CNN.pool_every (ResNet.base self) ≠ 0
  /\ is_Some (POOLINGS !! CNN.pooling_type (ResNet.base self))
  /\ ResNet.recorded_dim (ResNet.base self) pools (CNN.in_size (ResNet.base self)).2
     = Ok (CNN.conv_out_w e)
  /\ ResNet.recorded_dim (ResNet.base self) pools (CNN.in_size (ResNet.base self)).1.2
     = Ok (CNN.conv_out_h e).
Proof.
  unfold ResNet._make_feature_extractor.
  destruct (CNN.in_size (ResNet.base self)) as [[c h] w_]. cbn [fst snd]. intros E.
  apply bind_inv_Ok in E as (f & w1 & Ef & E). apply lift_inv_Ok in Ef as [Ef ->].
  apply bind_inv_Ok in E as (n & w2 & En & E). apply lift_inv_Ok in En as [En ->].
  unfold py_floordiv in En.
  destruct (Z.eqb_spec (CNN.pool_every (ResNet.base self)) 0) as [E0|E0]; [discriminate En|].
  injection En as <-.
  apply bind_inv_Ok in E as (ls1 & w3 & _ & E).
  apply bind_inv_Ok in E as (ls2 & w4 & _ & E).
  apply bind_inv_Ok in E as (rw & w5 & Ew & E). apply lift_inv_Ok in Ew as [Ew ->].
  apply bind_inv_Ok in E as (rh & w6 & Eh & E). apply lift_inv_Ok in Eh as [Eh ->].
  injection E as <- <-. cbn [CNN.conv_out_w CNN.conv_out_h].
  split; [exact E0|]. split; [|split; assumption].
  unfold py_lookup in Ef. destruct (POOLINGS !! _) as [f'|]; [now eexists|discriminate Ef].
Qed.

(** X6: whenever [ResNet._make_feature_extractor] returns with a number
    of poolings N // P that is not negative, as it is for every positive
    pooling interval, the width and the height it records are the input
    ones divided, rounding down, by the pooling kernel size to the power
    N // P; the convolutions do not enter.  This holds whatever blocks
    the pipeline has, the bottleneck form of the remaining channels
    included. *)
Theorem ResNet_recorded_dims `{Torch} (self : ResNet.args) (w w' : world)
    (e : CNN.extractor) :
  ResNet._make_feature_extractor self w = (Ok e, w') ->
  let pools := len (CNN.channels (ResNet.base self)) / CNN.pool_every (ResNet.base self) in
  (0 < CNN.pool_every (ResNet.base self) -> 0 <= pools)
  /\ (0 <= pools ->
      exists pk,
        CNN.pooling_params (ResNet.base self) !! "kernel_size" = Some pk
        /\ pk ^ pools ≠ 0
        /\ CNN.conv_out_w e = PInt ((CNN.in_size (ResNet.base self)).2 / pk ^ pools)
        /\ CNN.conv_out_h e = PInt ((CNN.in_size (ResNet.base self)).1.2 / pk ^ pools)).
Proof.
  intros E pools. split.
  - intros HP. apply Z.div_pos; [unfold len; lia|exact HP].
  - intros Hn.
    destruct (resnet_extractor_dims_inv self w w' e E) as (_ & _ & Ew & Eh).
    fold pools in Ew, Eh.
    apply recorded_dim_inv in Ew as (pk & Hpk & Hz & Hw); [|exact Hn].
    apply recorded_dim_inv in Eh as (pk' & Hpk' & _ & Hh); [|exact Hn].
    assert (pk' = pk) as -> by congruence.
    exists pk. auto.
Qed.

(** The configuration with two remaining channels in the bottleneck form
    is built. *)
Lemma resnet_remainder_two_returns :
  match fst (ResNet._make_feature_extractor Examples.resnet_remainder_two Examples.w0) with
  | Ok e => True
  | Raise _ => False
  end.
Proof. vm_compute. exact I. Qed.

Lemma ResNet_recorded_dims_witness :
  exists e w',
    ResNet._make_feature_extractor Examples.resnet_remainder_two Examples.w0 = (Ok e, w')
    /\ CNN.conv_out_w e = PInt 4 /\ CNN.conv_out_h e = PInt 4.
Proof.
  pose proof resnet_remainder_two_returns as R.
  destruct (ResNet._make_feature_extractor Examples.resnet_remainder_two Examples.w0)
    as [[e|x] w'] eqn:E; cbn [fst] in R; [|contradiction].
  exists e, w'. split; [reflexivity|].
  destruct (ResNet_recorded_dims Examples.resnet_remainder_two Examples.w0 w' e E)
    as [_ D].
  destruct D as (pk & Hpk & _ & Hw & Hh); [vm_compute; discriminate|].
  assert (Hk : CNN.pooling_params (ResNet.base Examples.resnet_remainder_two)
               !! "kernel_size" = Some 2) by (vm_compute; reflexivity).
  rewrite Hk in Hpk. injection Hpk as <-.
  rewrite Hw, Hh. split; vm_compute; reflexivity.
Defined.

(** X7: with a pooling interval of zero and a supported pooling kind, the
    residual extractors of [ResNet] and [YourCNN] raise a
    ZeroDivisionError before anything is instantiated. *)
Theorem residual_extractor_interval_zero `{Torch} (self : ResNet.args) (f : pool_ctor)
    (w : world) :
  CNN.pool_every (ResNet.base self) = 0 ->
  POOLINGS !! CNN.pooling_type (ResNet.base self) = Some f ->
  ResNet._make_feature_extractor self w = (Raise ZeroDivisionError, w)
  /\ YourCNN._make_feature_extractor
       (YourCNN.Args (ResNet.base self) (ResNet.batchnorm self) (ResNet.dropout self)) w
     = (Raise ZeroDivisionError, w).
Proof.
  intros HP Hf. split.
  - unfold ResNet._make_feature_extractor.
    destruct (CNN.in_size (ResNet.base self)) as [[c h] w_].
    unfold py_lookup. rewrite Hf, bind_lift_Ok, HP. reflexivity.
  - unfold YourCNN._make_feature_extractor. cbn [YourCNN.base].
    destruct (CNN.in_size (ResNet.base self)) as [[c h] w_].
    unfold py_lookup. rewrite Hf, bind_lift_Ok, HP. reflexivity.
Qed.

Lemma residual_extractor_interval_zero_witness :
  CNN.pool_every (ResNet.base Examples.resnet_interval_zero) = 0
  /\ POOLINGS !! CNN.pooling_type (ResNet.base Examples.resnet_interval_zero) = Some MaxPool2d
  /\ @ResNet._make_feature_extractor ShapeTorch Examples.resnet_interval_zero Examples.w0
     = (Raise ZeroDivisionError, Examples.w0).
Proof.
  assert (HP : CNN.pool_every (ResNet.base Examples.resnet_interval_zero) = 0)
    by reflexivity.
  assert (Hf : POOLINGS !! CNN.pooling_type (ResNet.base Examples.resnet_interval_zero)
               = Some MaxPool2d) by (vm_compute; reflexivity).
  split; [exact HP|]. split; [exact Hf|].
  exact (proj1 (@residual_extractor_interval_zero ShapeTorch Examples.resnet_interval_zero
                  MaxPool2d Examples.w0 HP Hf)).
Defined.

Section PlainFirstIteration.
Context `{Torch}.
Variables (self : CNN.args) (k : Z) (act : act_ctor) (f : pool_ctor).
Hypothesis Hne : CNN.channels self ≠ [].
Hypothesis Hk : CNN.conv_params self !! "kernel_size" = Some k.
Hypothesis Hact : ACTIVATIONS !! CNN.activation_type self = Some act.
Hypothesis Hf : POOLINGS !! CNN.pooling_type self = Some f.

(** An exception of the first iteration of the loop is the exception of the
    plain extractor. *)
Lemma plain_first_iteration_raises (e : exn) (w : world) :
  (forall cin cout w1, exists w2,
     CNN.loop_body self f (Activation act (CNN.activation_params self))
       (CNN.LoopState [] (CNN.in_size self).2 (CNN.in_size self).1.2 0) (cin, cout) w1
     = (Raise e, w2)) ->
  raises (CNN._make_feature_extractor self) w e.
Proof.
  intros Hbody. unfold raises, CNN._make_feature_extractor.
  destruct (CNN.in_size self) as [[in_channels in_h] in_w]. cbn [fst snd] in Hbody.
  unfold py_lookup. rewrite Hf, Hact, !bind_lift_Ok.
  erewrite bind_Ok by (apply new_module_Ok; reflexivity).
  rewrite CNN_pairs.
  destruct (CNN.channels self) as [|c cs]; [contradiction|].
  cbn [zip_with py_for].
  match goal with |- context [(_ ≫= _) ?w1] =>
    destruct (Hbody in_channels c w1) as (w2 & E) end.
  exists w2. erewrite bind_Raise.
  2:{ erewrite bind_Raise by exact E. reflexivity. }
  reflexivity.
Qed.

Lemma conv_check_k (cin cout : Z) :
  ctor_check (Conv2d cin cout (VInt <$> CNN.conv_params self)) = Ok tt.
Proof.
  unfold ctor_check, py_in. rewrite lookup_fmap, Hk.
  rewrite bool_decide_eq_true_2; [reflexivity|]. now eexists.
Qed.

(** The first iteration when the dimension after the convolution cannot be
    computed. *)
Lemma plain_conv_dim_raises (e : exn) (w : world) :
  CNN.conv_dim self (CNN.in_size self).2 = Raise e ->
  raises (CNN._make_feature_extractor self) w e.
Proof.
  intros Ed. apply plain_first_iteration_raises. intros cin cout w1.
  unfold CNN.loop_body. cbn [CNN.cur_w CNN.cur_h CNN.layers CNN.pool_count].
  erewrite bind_Ok by (apply new_module_Ok, conv_check_k).
  rewrite Ed. eexists. reflexivity.
Qed.

End PlainFirstIteration.

(** X8: with a pooling interval of zero, at least one channel and
    otherwise valid parameters, the plain extractor raises a
    ZeroDivisionError, at the test of line 95 in its first iteration. *)
Theorem CNN_extractor_interval_zero `{Torch} (self : CNN.args) (k p s : Z)
    (act : act_ctor) (f : pool_ctor) (w : world) :
  CNN.channels self ≠ [] ->
  CNN.conv_params self !! "kernel_size" = Some k ->
  CNN.conv_params self !! "padding" = Some p ->
  CNN.conv_params self !! "stride" = Some s -> s ≠ 0 ->
  ACTIVATIONS !! CNN.activation_type self = Some act ->
  POOLINGS !! CNN.pooling_type self = Some f ->
  CNN.pool_every self = 0 ->
  raises (CNN._make_feature_extractor self) w ZeroDivisionError.
Proof.
  intros Hne Hk Hp Hs Hs0 Hact Hf HP.
  apply (plain_first_iteration_raises self act f Hne Hact Hf). intros cin cout w1.
  unfold CNN.loop_body. cbn [CNN.cur_w CNN.cur_h CNN.layers CNN.pool_count].
  erewrite bind_Ok by (apply new_module_Ok, (conv_check_k self k Hk)).
  assert (Hd : forall d, CNN.conv_dim self d = Ok ((d - k + 2 * p) / s)).
  { intros d. unfold CNN.conv_dim, py_lookup. rewrite Hk, Hp, Hs. cbn.
    unfold floor_truediv. destruct (Z.eqb_spec s 0); [contradiction|reflexivity]. }
  rewrite !Hd, !bind_lift_Ok, HP. eexists. reflexivity.
Qed.

Lemma CNN_extractor_interval_zero_witness :
  CNN.channels Examples.cnn_interval_zero ≠ []
  /\ CNN.pool_every Examples.cnn_interval_zero = 0
  /\ raises (CNN._make_feature_extractor Examples.cnn_interval_zero) Examples.w0
       ZeroDivisionError.
Proof.
  assert (Hne : CNN.channels Examples.cnn_interval_zero ≠ []) by discriminate.
  split; [exact Hne|]. split; [reflexivity|].
  apply (CNN_extractor_interval_zero Examples.cnn_interval_zero 3 1 1 ReLU MaxPool2d
           Examples.w0 Hne); (vm_compute; reflexivity) || lia.
Defined.

(** X9: with at least one channel, supported kinds and a kernel size among
    the convolution parameters, the plain extractor raises KeyError
    'padding' when the padding is missing, KeyError 'stride' when the
    stride is missing, and a ZeroDivisionError when the stride is zero
    (line 92, in the first iteration). *)
Theorem CNN_extractor_conv_params_errors `{Torch} (self : CNN.args) (k : Z)
    (act : act_ctor) (f : pool_ctor) (w : world) :
  CNN.channels self ≠ [] ->
  CNN.conv_params self !! "kernel_size" = Some k ->
  ACTIVATIONS !! CNN.activation_type self = Some act ->
  POOLINGS !! CNN.pooling_type self = Some f ->
  (CNN.conv_params self !! "padding" = None ->
   raises (CNN._make_feature_extractor self) w (KeyError "padding"))
  /\ (is_Some (CNN.conv_params self !! "padding") ->
      CNN.conv_params self !! "stride" = None ->
      raises (CNN._make_feature_extractor self) w (KeyError "stride"))
  /\ (is_Some (CNN.conv_params self !! "padding") ->
      CNN.conv_params self !! "stride" = Some 0 ->
      raises (CNN._make_feature_extractor self) w ZeroDivisionError).
Proof.
  intros Hne Hk Hact Hf. split; [|split].
  - intros Hp. apply (plain_conv_dim_raises self k act f Hne Hk Hact Hf).
    unfold CNN.conv_dim, py_lookup. now rewrite Hk, Hp.
  - intros [p Hp] Hs. apply (plain_conv_dim_raises self k act f Hne Hk Hact Hf).
    unfold CNN.conv_dim, py_lookup. now rewrite Hk, Hp, Hs.
  - intros [p Hp] Hs. apply (plain_conv_dim_raises self k act f Hne Hk Hact Hf).
    unfold CNN.conv_dim, py_lookup. now rewrite Hk, Hp, Hs.
Qed.

Lemma CNN_extractor_conv_params_errors_witness :
  CNN.channels Examples.cnn_no_padding ≠ []
  /\ CNN.conv_params Examples.cnn_no_padding !! "kernel_size" = Some 3
  /\ CNN.conv_params Examples.cnn_no_padding !! "padding" = None
  /\ raises (CNN._make_feature_extractor Examples.cnn_no_padding) Examples.w0
       (KeyError "padding").
Proof.
  assert (Hne : CNN.channels Examples.cnn_no_padding ≠ []) by discriminate.
  assert (Hk : CNN.conv_params Examples.cnn_no_padding !! "kernel_size" = Some 3)
    by (vm_compute; reflexivity).
  assert (Hp : CNN.conv_params Examples.cnn_no_padding !! "padding" = None)
    by (vm_compute; reflexivity).
  split; [exact Hne|]. split; [exact Hk|]. split; [exact Hp|].
  refine (proj1 (CNN_extractor_conv_params_errors Examples.cnn_no_padding 3 ReLU MaxPool2d
                   Examples.w0 Hne Hk _ _) Hp); vm_compute; reflexivity.
Defined.

(** With a negative pooling interval no channel remains. *)
Lemma remainder_negative_interval `{Torch} (self : ResNet.args) (all_channels : list Z)
    (layers : list layer) (w : world) :
  CNN.pool_every (ResNet.base self) < 0 ->
  ResNet.remainder self all_channels layers w = (Ok layers, w).
Proof.
  intros HP. unfold ResNet.remainder, py_mod.
  destruct (Z.eqb_spec (CNN.pool_every (ResNet.base self)) 0); [lia|].
  rewrite bind_lift_Ok.
  pose proof (Z.mod_neg_bound (len (CNN.channels (ResNet.base self))) _ HP) as Hm.
  destruct (Z.ltb_spec 0 (len (CNN.channels (ResNet.base self))
                          mod CNN.pool_every (ResNet.base self))); [lia|].
  reflexivity.
Qed.

(** With a negative pooling interval the loop over the groups has no
    iteration: the extractor is lines 376-377 and an empty pipeline. *)
Lemma resnet_extractor_negative `{Torch} (self : ResNet.args) (f : pool_ctor) (w : world) :
  CNN.pool_every (ResNet.base self) < 0 ->
  POOLINGS !! CNN.pooling_type (ResNet.base self) = Some f ->
  let pools := len (CNN.channels (ResNet.base self)) / CNN.pool_every (ResNet.base self) in
  ResNet._make_feature_extractor self w
  = (w_ ← lift (ResNet.recorded_dim (ResNet.base self) pools
                  (CNN.in_size (ResNet.base self)).2);
     h_ ← lift (ResNet.recorded_dim (ResNet.base self) pools
                  (CNN.in_size (ResNet.base self)).1.2);
     mret (CNN.Extractor [] w_ h_)) w.
Proof.
  intros HP Hf pools. unfold ResNet._make_feature_extractor.
  destruct (CNN.in_size (ResNet.base self)) as [[c h] w_]. cbn [fst snd].
  unfold py_lookup at 1. rewrite Hf, bind_lift_Ok.
  unfold py_floordiv.
  destruct (Z.eqb_spec (CNN.pool_every (ResNet.base self)) 0); [lia|].
  rewrite bind_lift_Ok. fold pools.
  assert (Hq : pools <= 0).
  { subst pools. assert (Hn : 0 <= len (CNN.channels (ResNet.base self))) by (unfold len; lia).
    pose proof (Z.div_mod (len (CNN.channels (ResNet.base self)))
                  (CNN.pool_every (ResNet.base self)) ltac:(lia)).
    pose proof (Z.mod_neg_bound (len (CNN.channels (ResNet.base self))) _ HP). nia. }
  rewrite seqZ_nil by exact Hq.
  erewrite bind_Ok by reflexivity.
  erewrite bind_Ok by (apply remainder_negative_interval, HP).
  reflexivity.
Qed.

(** X10: with a negative pooling interval and a supported pooling kind,
    the residual extractor builds no block and no pooling, whatever the
    channels: it is lines 376-377 alone, which compute the recorded
    dimensions, with an empty pipeline.  The global state is left as it
    was, and an extractor that is returned has no module. *)
Theorem ResNet_negative_interval_is_empty `{Torch} (self : ResNet.args) (f : pool_ctor)
    (w : world) :
  CNN.pool_every (ResNet.base self) < 0 ->
  POOLINGS !! CNN.pooling_type (ResNet.base self) = Some f ->
  let pools := len (CNN.channels (ResNet.base self)) / CNN.pool_every (ResNet.base self) in
  ResNet._make_feature_extractor self w
  = (w_ ← lift (ResNet.recorded_dim (ResNet.base self) pools
                  (CNN.in_size (ResNet.base self)).2);
     h_ ← lift (ResNet.recorded_dim (ResNet.base self) pools
                  (CNN.in_size (ResNet.base self)).1.2);
     mret (CNN.Extractor [] w_ h_)) w
  /\ snd (ResNet._make_feature_extractor self w) = w
  /\ forall e w', ResNet._make_feature_extractor self w = (Ok e, w') -> CNN.seq e = [].
Proof.
  intros HP Hf pools.
  pose proof (resnet_extractor_negative self f w HP Hf) as E. fold pools in E.
  split; [exact E|]. rewrite E. clear E.
  unfold mbind, M_bind, lift, mret, M_ret.
  destruct (ResNet.recorded_dim (ResNet.base self) pools _) as [rw|x];
    [|split; [reflexivity|discriminate]].
  destruct (ResNet.recorded_dim (ResNet.base self) pools _) as [rh|x];
    [|split; [reflexivity|discriminate]].
  split; [reflexivity|]. intros e w' [= <- _]. reflexivity.
Qed.

Lemma ResNet_negative_interval_is_empty_witness :
  CNN.pool_every (ResNet.base Examples.resnet_interval_negative) < 0
  /\ CNN.channels (ResNet.base Examples.resnet_interval_negative) = [6; 5; 4; 4]
  /\ snd (@ResNet._make_feature_extractor ShapeTorch Examples.resnet_interval_negative
            Examples.w0) = Examples.w0
  /\ forall e w',
       @ResNet._make_feature_extractor ShapeTorch Examples.resnet_interval_negative
         Examples.w0 = (Ok e, w') ->
       CNN.seq e = [].
Proof.
  assert (HP : CNN.pool_every (ResNet.base Examples.resnet_interval_negative) < 0)
    by reflexivity.
  split; [exact HP|]. split; [reflexivity|].
  refine (proj2 (@ResNet_negative_interval_is_empty ShapeTorch
                   Examples.resnet_interval_negative MaxPool2d Examples.w0 HP _)).
  vm_compute. reflexivity.
Defined.

(** X11: when the remaining N mod P channels select the bottleneck form
    (bottleneck mode, equal input and output channel counts), the block is
    built only if they are exactly P - 1 >= 2 channels, and it then has one
    convolution more than channels remain; otherwise the construction fails
    with an AssertionError, because line 370 takes P - 2 inner kernel
    sizes for N mod P - 1 inner channels. *)
Theorem ResNet_remainder_in_bottleneck_mode `{Torch} (self : ResNet.args) (act : act_ctor)
    (layers : list layer) (w : world) :
  0 < CNN.pool_every (ResNet.base self) ->
  ACTIVATIONS !! CNN.activation_type (ResNet.base self) = Some act ->
  (0 < ResNetSpec.L self)%nat ->
  ResNetSpec.remainder_selects_bottleneck self = true ->
  (~ (2 ≤ ResNetSpec.L self /\ ResNetSpec.L self = ResNetSpec.P self - 1)%nat ->
   ResNet.remainder self (ResNetSpec.all_channels self) layers w
   = (Raise AssertionError, w))
  /\ ((2 ≤ ResNetSpec.L self)%nat -> (ResNetSpec.L self = ResNetSpec.P self - 1)%nat ->
      exists w',
        ResNet.remainder self (ResNetSpec.all_channels self) layers w
        = (Ok (layers ++ [ResNetSpec.remainder_bottleneck_block self act]), w')).
Proof.
  intros HP Hact HL Hsel.
  pose proof (length_remainder_inner self HL) as Hinner.
  split.
  - intros Hno. rewrite (remainder_selected self HP HL Hsel).
    destruct (decide (ResNetSpec.L self = 1%nat)) as [E1|E1].
    + destruct (take (ResNetSpec.L self - 1) _) as [|c cs].
      * now erewrite bind_Raise by apply bottleneck_init_empty.
      * cbn [length] in Hinner. lia.
    + erewrite bind_Raise; [reflexivity|].
      apply bottleneck_init_length_mismatch. rewrite Hinner, length_replicate. lia.
  - intros H2 HLP. rewrite (remainder_selected self HP HL Hsel).
    unfold ResNetSpec.remainder_bottleneck_block.
    destruct (take (ResNetSpec.L self - 1) _) as [|c1 cs] eqn:Ei.
    { cbn [length] in Hinner. lia. }
    assert (Hlen : length (c1 :: cs) = length (replicate (ResNetSpec.P self - 2) 3))
      by (rewrite Hinner, length_replicate; lia).
    assert (V : block_valid (c1 :: c1 :: cs ++ [ResNetSpec.remainder_in self])
                  (1 :: replicate (ResNetSpec.P self - 2) 3 ++ [1])
                  (ResNet.block_opts self) act).
    { split; [discriminate| | |exact (opts_activation self act Hact)].
      - cbn [length] in *. rewrite !length_app. cbn [length]. lia.
      - constructor; [reflexivity|]. apply Forall_app.
        split; [apply Forall_replicate_odd|]. constructor; [reflexivity|constructor]. }
    destruct (block_init_run (ResNet.block_opts self) act (ResNetSpec.remainder_in self)
                _ _ w V) as (w' & E).
    exists w'. erewrite bind_Ok.
    2:{ rewrite bottleneck_init_eq by exact Hlen. exact E. }
    reflexivity.
Qed.

Lemma ResNet_remainder_in_bottleneck_mode_witness :
  0 < CNN.pool_every (ResNet.base Examples.resnet_remainder_one)
  /\ (0 < ResNetSpec.L Examples.resnet_remainder_one)%nat
  /\ ResNetSpec.remainder_selects_bottleneck Examples.resnet_remainder_one = true
  /\ ~ (2 ≤ ResNetSpec.L Examples.resnet_remainder_one
        /\ ResNetSpec.L Examples.resnet_remainder_one
           = ResNetSpec.P Examples.resnet_remainder_one - 1)%nat
  /\ @ResNet.remainder ShapeTorch Examples.resnet_remainder_one
       (ResNetSpec.all_channels Examples.resnet_remainder_one) [] Examples.w0
     = (Raise AssertionError, Examples.w0).
Proof.
  assert (HP : 0 < CNN.pool_every (ResNet.base Examples.resnet_remainder_one))
    by reflexivity.
  assert (HL : (0 < ResNetSpec.L Examples.resnet_remainder_one)%nat)
    by (vm_compute; lia).
  assert (Hsel : ResNetSpec.remainder_selects_bottleneck Examples.resnet_remainder_one
                 = true) by (vm_compute; reflexivity).
  assert (Hno : ~ (2 ≤ ResNetSpec.L Examples.resnet_remainder_one
                   /\ ResNetSpec.L Examples.resnet_remainder_one
                      = ResNetSpec.P Examples.resnet_remainder_one - 1)%nat)
    by (vm_compute; lia).
  split; [exact HP|]. split; [exact HL|]. split; [exact Hsel|]. split; [exact Hno|].
  refine (proj1 (@ResNet_remainder_in_bottleneck_mode ShapeTorch
                   Examples.resnet_remainder_one ReLU [] Examples.w0 HP _ HL Hsel) Hno).
  vm_compute. reflexivity.
Defined.






(** X13: every model that [CNN.__init__] returns, of whatever class, has
    channels and hidden dimensions, supported activation and pooling
    kinds, and a head whose dimensions are the hidden dimensions followed
    by the number of classes, with the configured activation after each
    hidden layer and 'none' after the last layer. *)
Theorem CNN_model_invariants `{Torch} (mfe : CNN.args -> M CNN.extractor)
    (self : CNN.args) (w w' : world) (m : CNN.model) :
  CNN.__init__ mfe self w = (Ok m, w') ->
  CNN.self m = self
  /\ CNN.channels self ≠ [] /\ CNN.hidden_dims self ≠ []
  /\ is_Some (POOLINGS !! CNN.pooling_type self)
  /\ exists act F,
       ACTIVATIONS !! CNN.activation_type self = Some act
       /\ CNN.mlp m
          = MLP F (CNN.hidden_dims self ++ [CNN.out_classes self])
              (replicate (length (CNN.hidden_dims self))
                 (inl (Activation act (CNN.activation_params self))) ++ [inr "none"]).
Proof.
  unfold CNN.__init__. intros E.
  apply bind_inv_Ok in E as (u & w0 & Eu & E).
  unfold lift in Eu. injection Eu as Eu <-.
  destruct (bool_decide (CNN.channels self ≠ [])) eqn:Ec; [|discriminate Eu].
  destruct (bool_decide (CNN.hidden_dims self ≠ [])) eqn:Eh; [|discriminate Eu].
  apply bool_decide_eq_true in Ec, Eh.
  destruct (py_in (CNN.activation_type self) ACTIVATIONS) eqn:Ea; [|discriminate E].
  destruct (py_in (CNN.pooling_type self) POOLINGS) eqn:Ep; [|discriminate E].
  cbn [negb orb] in E.
  apply py_in_is_Some in Ea, Ep.
  apply bind_inv_Ok in E as (fe & w1 & Efe & E).
  apply bind_inv_Ok in E as (mlp & w2 & Emlp & E).
  injection E as <- <-.
  unfold CNN._make_mlp in Emlp.
  apply bind_inv_Ok in Emlp as (act & w3 & Eact & Emlp).
  apply bind_inv_Ok in Emlp as (phi & wp & Ephi & Emlp).
  apply bind_inv_Ok in Emlp as (n & w5 & En & Emlp).
  unfold lift, py_lookup in Eact.
  destruct (ACTIVATIONS !! CNN.activation_type self) as [a|] eqn:Elook; [|discriminate Eact].
  injection Eact as -> <-.
  unfold new_module in Ephi. cbn [ctor_check] in Ephi. injection Ephi as <- <-.
  unfold new_module in Emlp. cbn [ctor_check] in Emlp. injection Emlp as <- <-.
  cbn [CNN.self CNN.mlp].
  split; [reflexivity|]. split; [exact Ec|]. split; [exact Eh|]. split; [exact Ep|].
  exists act, n. split; reflexivity.
Qed.

Lemma CNN_model_invariants_witness :
  exists m w',
    @CNN.__init__ ShapeTorch CNN._make_feature_extractor Examples.cnn Examples.w0 = (Ok m, w')
    /\ CNN.self m = Examples.cnn
    /\ exists F nonlins, CNN.mlp m = MLP F [10; 5] nonlins.
Proof.
  pose proof head_of_example as P.
  destruct (@CNN.__init__ ShapeTorch CNN._make_feature_extractor Examples.cnn Examples.w0)
    as [[m|e] w'] eqn:E; cbn [fst] in P; [|contradiction].
  exists m, w'. split; [reflexivity|].
  destruct (@CNN_model_invariants ShapeTorch CNN._make_feature_extractor Examples.cnn
              Examples.w0 w' m E) as (Hs & _ & _ & _ & act & F & _ & Hm).
  split; [exact Hs|]. exists F. eexists. exact Hm.
Defined.
